(** * Cluster-autoscaler priority auto-configuration: a model of [main.go]

    The program lists the auto-scaling groups of a region, adds up the free
    IP addresses of each group's subnets, buckets the group names by that
    sum and writes the buckets, highest first, into the ConfigMap read by
    the cluster autoscaler's priority expander.

    The development follows the source file top to bottom: the Go library
    functions it calls, the records of the AWS and Kubernetes SDKs it reads,
    the package-level variables, then [awsSearchEC2ASGByName] and
    [mainLoop].  Run-time faults (nil dereference, index out of range) are
    results of their own, since nothing in the program recovers from them. *)

From Stdlib Require Import Ascii.
From stdpp Require Import base gmap strings list fin_maps sorting pretty.

Local Open Scope string_scope.
Local Open Scope list_scope.
Local Open Scope Z_scope.

(** ** Go library functions used by the program *)

(** The line feed written by [fmt.Println] and by the [\n] of a format. *)
Definition nl : string := String (Ascii.ascii_of_nat 10) EmptyString.

(** [strings.Contains(s, substr)]: [substr] occurs somewhere in [s]. *)
Fixpoint Contains (s substr : string) : bool :=
  String.prefix substr s ||
  match s with
  | EmptyString => false
  | String _ s' => Contains s' substr
  end.

(** [strings.Split(s, sep)] for a separator of one byte, the only way the
    program calls it.  [cur] holds the bytes of the current field in
    reverse.  The result is never empty: a string without the separator,
    the empty one included, is returned as its only field. *)
Fixpoint SplitFrom (cur : string) (s : string) (sep : Ascii.ascii) : list string :=
  match s with
  | EmptyString => [String.rev cur]
  | String c s' =>
      if Ascii.eqb c sep
      then String.rev cur :: SplitFrom EmptyString s' sep
      else SplitFrom (String c cur) s' sep
  end.

Definition Split (s : string) (sep : Ascii.ascii) : list string :=
  SplitFrom EmptyString s sep.

(** [%d] of an [int]. *)
Definition fmt_d (z : Z) : string := pretty z.

(** Go's [int] on the 64-bit platforms the program is built for: addition
    wraps around in two's complement. *)
Definition int_bits : Z := 64.
Definition int_min : Z := - 2 ^ (int_bits - 1).
Definition int_max : Z := 2 ^ (int_bits - 1) - 1.
Definition wrap_int (z : Z) : Z :=
  (z + 2 ^ (int_bits - 1)) mod 2 ^ int_bits - 2 ^ (int_bits - 1).
Definition int_add (a b : Z) : Z := wrap_int (a + b).

(** [sort.Sort(sort.Reverse(sort.IntSlice(keys)))]: the keys in decreasing
    order. *)
Definition sortReverse (keys : list Z) : list Z :=
  merge_sort (flip Z.le) keys.

(** ** Run-time faults *)

Inductive Res (A : Type) : Type :=
  | Ok (a : A)
  | Panic (msg : string).
Arguments Ok {A} a.
Arguments Panic {A} msg.

Definition nil_deref : string :=
  "invalid memory address or nil pointer dereference".
Definition index_out_of_range : string := "index out of range".

Module ResM.
Definition bind {A B} (r : Res A) (f : A → Res B) : Res B :=
  match r with
  | Ok a => f a
  | Panic msg => Panic msg
  end.

(** [*p] *)
Definition deref {A} (p : option A) : Res A :=
  match p with
  | Some a => Ok a
  | None => Panic nil_deref
  end.

(** [xs[0]] *)
Definition first {A} (xs : list A) : Res A :=
  match xs with
  | x :: _ => Ok x
  | [] => Panic index_out_of_range
  end.
End ResM.

Declare Scope res_scope.
Delimit Scope res_scope with res.
Notation "x <- m ;; k" := (ResM.bind m (λ x, k))
  (at level 100, m at next level, right associativity) : res_scope.

(** A [for _, x := range xs] loop whose body updates the variables [st] and
    may fault. *)
Fixpoint forEach {A St : Type} (xs : list A) (body : A → St → Res St)
    (st : St) : Res St :=
  match xs with
  | [] => Ok st
  | x :: xs' => ResM.bind (body x st) (forEach xs' body)
  end.

(** ** The records of the AWS SDK the program reads

    A Go pointer field is an [option]; only the fields the program touches
    are kept. *)

Record LaunchTemplateSpecification := {
  LaunchTemplateName : option string;
}.

Record LaunchTemplate := {
  LaunchTemplateSpecification_ : option LaunchTemplateSpecification;
}.

Record MixedInstancesPolicy := {
  MixedInstancesPolicy_LaunchTemplate : option LaunchTemplate;
}.

(** [autoscaling.Group] *)
Record Group := {
  AutoScalingGroupName : option string;
  Group_LaunchTemplate : option LaunchTemplateSpecification;
  Group_MixedInstancesPolicy : option MixedInstancesPolicy;
  VPCZoneIdentifier : option string;
}.

#[export] Instance LaunchTemplateSpecification_eq_dec : EqDecision LaunchTemplateSpecification.
Proof. solve_decision. Defined.
#[export] Instance LaunchTemplate_eq_dec : EqDecision LaunchTemplate.
Proof. solve_decision. Defined.
#[export] Instance MixedInstancesPolicy_eq_dec : EqDecision MixedInstancesPolicy.
Proof. solve_decision. Defined.
#[export] Instance Group_eq_dec : EqDecision Group.
Proof. solve_decision. Defined.

(** [ec2.Subnet] *)
Record Subnet := {
  SubnetId : option string;
  AvailableIpAddressCount : option Z;
}.

(** [ec2.DescribeSubnetsOutput] *)
Record DescribeSubnetsOutput := {
  Subnets : list Subnet;
}.

(** The auto-scaling client as the program sees it: the pages that
    [DescribeAutoScalingGroupsPages] hands to its callback, and the error it
    returns once it stops. *)
Record AutoScaling := {
  asgPages : list (list Group);
  asgErr : option string;
}.

(** The EC2 client: [DescribeSubnets] for one subnet id returns an output
    and an error.  The SDK allocates the output before it sends the request,
    so there is one also when the request fails, without subnets. *)
Record EC2 := {
  DescribeSubnets : string → option DescribeSubnetsOutput * option string;
}.

(** ** The records of the Kubernetes API the program reads and writes *)

Record ObjectMeta := {
  Name : string;
  Namespace : string;
  UID : string;
  ResourceVersion : string;
  Labels : gmap string string;
  Annotations : gmap string string;
}.

(** [v1.ConfigMap] *)
Record ConfigMap := {
  Kind : string;
  APIVersion : string;
  Meta : ObjectMeta;
  Immutable : option bool;
  Data : gmap string string;
  BinaryData : gmap string (list Byte.byte);
}.

Definition emptyObjectMeta : ObjectMeta :=
  {| Name := ""; Namespace := ""; UID := ""; ResourceVersion := "";
     Labels := ∅; Annotations := ∅ |}.

(** [cm.Data = data] *)
Definition setData (cm : ConfigMap) (data : gmap string string) : ConfigMap :=
  {| Kind := Kind cm; APIVersion := APIVersion cm; Meta := Meta cm;
     Immutable := Immutable cm; Data := data; BinaryData := BinaryData cm |}.

(** The literal [&v1.ConfigMap{ObjectMeta: metav1.ObjectMeta{Name: name},
    Data: data}]. *)
Definition newConfigMap (name : string) (data : gmap string string) : ConfigMap :=
  {| Kind := ""; APIVersion := "";
     Meta := {| Name := name; Namespace := ""; UID := ""; ResourceVersion := "";
                Labels := ∅; Annotations := ∅ |};
     Immutable := None; Data := data; BinaryData := ∅ |}.

(** A call either yields its value or an error (the text of [%v]). *)
Inductive Reply (A : Type) : Type :=
  | Value (a : A)
  | Error (err : string).
Arguments Value {A} a.
Arguments Error {A} err.

(** client-go's [ConfigMapInterface], restricted to the three methods the
    program calls.  [S] is the state of the API server and of the connection
    to it, as far as the answers depend on it: every call, a read included,
    hands back the state in which the next call is answered, so that two
    reads in a row need not give the same answer. *)
Class ConfigMapInterface (S : Type) := {
  Get : string → string → S → Reply ConfigMap * S;
  Create : string → ConfigMap → S → Reply ConfigMap * S;
  Update : string → ConfigMap → S → Reply ConfigMap * S;
}.

(** The requests sent to the API server, in the order they were sent. *)
Inductive Call : Type :=
  | CallGet (ns name : string)
  | CallCreate (ns : string) (cm : ConfigMap)
  | CallUpdate (ns : string) (cm : ConfigMap).

Definition isWrite (c : Call) : bool :=
  match c with
  | CallGet _ _ => false
  | CallCreate _ _ | CallUpdate _ _ => true
  end.

(** ** Package-level variables, after [init] *)

Record Vars := {
  setRegion : string;
  caNamespace : string;
  asgContains : string;
  ltContains : string;
  sleepMinutes : Z;
  catchAll : bool;
  debug : bool;
  skipCMCreation : bool;
}.

Definition caPriorityExpander : string := "cluster-autoscaler-priority-expander".

(** What one run of [mainLoop] reads besides the store: the variables, the
    two AWS clients, whether the Kubernetes client can be built, and the
    order in which [range] happens to visit the keys of a map (Go leaves it
    unspecified). *)
Record Env := {
  vars : Vars;
  autoscalingClient : AutoScaling;
  ec2Client : EC2;
  BuildConfigFromFlags : option string;
  NewForConfig : option string;
  rangeKeys : gmap Z (list string) → list Z;
}.

(** [range] visits every key once. *)
Definition rangeOk (e : Env) : Prop :=
  ∀ m : gmap Z (list string), rangeKeys e m ≡ₚ (map_to_list m).*1.

(** ** The program *)

Section Program.
Context {S : Type} `{!ConfigMapInterface S}.

(** What a run changes: the bytes written to standard output (one entry
    per call of [fmt.Println] or [fmt.Printf]), the requests sent to the
    API server and the store behind it. *)
Record World := {
  stdout : list string;
  calls : list Call;
  store : S;
}.

Definition M (A : Type) : Type := World → Res A * World.

Definition ret {A} (a : A) : M A := λ w, (Ok a, w).

Definition bind {A B} (m : M A) (f : A → M B) : M B :=
  λ w, match m w with
       | (Ok a, w') => f a w'
       | (Panic msg, w') => (Panic msg, w')
       end.

Definition lift {A} (r : Res A) : M A := λ w, (r, w).

Definition print (s : string) : M unit :=
  λ w, (Ok tt, {| stdout := stdout w ++ [s]; calls := calls w; store := store w |}).

Definition Println (s : string) : M unit := print (s +:+ nl).

(** [if c { ... }] around statements that return nothing. *)
Definition when (c : bool) (m : M unit) : M unit := if c then m else ret tt.

Definition callGet (ns name : string) : M (Reply ConfigMap) :=
  λ w, let (r, s') := Get ns name (store w) in
       (Ok r, {| stdout := stdout w; calls := calls w ++ [CallGet ns name];
                 store := s' |}).

Definition callCreate (ns : string) (cm : ConfigMap) : M (Reply ConfigMap) :=
  λ w, let (r, s') := Create ns cm (store w) in
       (Ok r, {| stdout := stdout w; calls := calls w ++ [CallCreate ns cm];
                 store := s' |}).

Definition callUpdate (ns : string) (cm : ConfigMap) : M (Reply ConfigMap) :=
  λ w, let (r, s') := Update ns cm (store w) in
       (Ok r, {| stdout := stdout w; calls := calls w ++ [CallUpdate ns cm];
                 store := s' |}).

Declare Scope world_scope.
Delimit Scope world_scope with world.
Notation "x <- m ;; k" := (bind m (λ x, k))
  (at level 100, m at next level, right associativity) : world_scope.
Notation "m ;; k" := (bind m (λ _, k))
  (at level 100, right associativity) : world_scope.

(** A [range] loop whose body also prints. *)
Fixpoint forEachM {A St : Type} (xs : list A) (body : A → St → M St)
    (st : St) : M St :=
  match xs with
  | [] => ret st
  | x :: xs' => bind (body x st) (forEachM xs' body)
  end.

(** *** [awsSearchEC2ASGByName] *)

(** The callback handed to [DescribeAutoScalingGroupsPages]; [records] is
    the variable it captures. *)
Definition pageCallback (name : string) (page : list Group) (lastPage : bool)
    (records : list Group) : Res (bool * list Group) :=
  (records' <- forEach page (λ group records,
      n <- ResM.deref (AutoScalingGroupName group) ;;
      Ok (if Contains n name then records ++ [group] else records)) records ;;
   Ok (negb lastPage, records'))%res.

(** The SDK's pager: it calls [fn] on each page it could fetch, with
    [lastPage] set when the service announced no further page, and stops
    early when [fn] returns false. *)
Fixpoint DescribeAutoScalingGroupsPages {St : Type} (pages : list (list Group))
    (err : option string) (fn : list Group → bool → St → Res (bool * St))
    (st : St) : Res St :=
  match pages with
  | [] => Ok st
  | page :: rest =>
      (r <- fn page (bool_decide (rest = []) && bool_decide (err = None)) st ;;
       if r.1 then DescribeAutoScalingGroupsPages rest err fn r.2 else Ok r.2)%res
  end.

Definition awsSearchEC2ASGByName (e : Env) (name : string) : M (list Group) :=
  (records <- lift (DescribeAutoScalingGroupsPages
                      (asgPages (autoscalingClient e))
                      (asgErr (autoscalingClient e)) (pageCallback name) []) ;;
   match asgErr (autoscalingClient e) with
        | Some err => print ("Error searching EC2 ASGs by name: " +:+ err +:+ nl)
        | None => ret tt
        end ;;
   ret records)%world.

(** *** [mainLoop] *)

(** Lines 90-95: the launch template's name, from the group's own launch
    template or else from its mixed-instances policy. *)
Definition ltNameOf (asg : Group) : Res string :=
  match Group_LaunchTemplate asg with
  | Some lt => ResM.deref (LaunchTemplateName lt)
  | None =>
      (mip <- ResM.deref (Group_MixedInstancesPolicy asg) ;;
       lt <- ResM.deref (MixedInstancesPolicy_LaunchTemplate mip) ;;
       spec <- ResM.deref (LaunchTemplateSpecification_ lt) ;;
       ResM.deref (LaunchTemplateName spec))%res
  end.

(** Lines 101-107: the free addresses of the group's subnets, added up.
    The error of [DescribeSubnets] is dropped and the first subnet of the
    output is read. *)
Definition freeIPsOf (ec2 : EC2) (asg : Group) : Res Z :=
  (zone <- ResM.deref (VPCZoneIdentifier asg) ;;
   forEach (Split zone ","%char) (λ subnetID freeIPs,
     subnet <- ResM.deref (DescribeSubnets ec2 subnetID).1 ;;
     s0 <- ResM.first (Subnets subnet) ;;
     n <- ResM.deref (AvailableIpAddressCount s0) ;;
     Ok (int_add freeIPs n)) 0)%res.

(** Lines 109-113. *)
Definition addToTier (caPriorities : gmap Z (list string)) (freeIPs : Z)
    (name : string) : gmap Z (list string) :=
  match caPriorities !! freeIPs with
  | None => <[freeIPs := [name]]> caPriorities
  | Some names => <[freeIPs := names ++ [name]]> caPriorities
  end.

(** The body of the loop over the groups, lines 86-118. *)
Definition considerASG (e : Env) (asg : Group)
    (caPriorities : gmap Z (list string)) : M (gmap Z (list string)) :=
  (when (debug (vars e))
          (n <- lift (ResM.deref (AutoScalingGroupName asg)) ;;
           Println ("considering ASG: " +:+ n)) ;;
   ltName <- lift (ltNameOf asg) ;;
   if Contains ltName (ltContains (vars e)) then
     when (debug (vars e)) (Println ("retrieving free IPs for LT: " +:+ ltName)) ;;
     freeIPs <- lift (freeIPsOf (ec2Client e) asg) ;;
     n <- lift (ResM.deref (AutoScalingGroupName asg)) ;;
     let caPriorities' := addToTier caPriorities freeIPs n in
     when (debug (vars e))
            (print (n +:+ "/" +:+ ltName +:+ " has " +:+ fmt_d freeIPs
                      +:+ " free IPs" +:+ nl)) ;;
     ret caPriorities'
   else ret caPriorities)%world.

(** One block of the listing: the key and the names under it. *)
Definition renderTier (priorities : string) (key : Z) (names : list string) : string :=
  foldl (λ priorities asg, priorities +:+ "  - " +:+ asg +:+ nl)
        (priorities +:+ fmt_d key +:+ ":" +:+ nl) names.

(** Lines 142-159: the value stored under ["priorities"]. *)
Definition renderPriorities (e : Env) (caPriorities : gmap Z (list string)) : string :=
  let keys := sortReverse (rangeKeys e caPriorities) in
  let priorities :=
    foldl (λ priorities key,
             renderTier priorities key (default [] (caPriorities !! key)))
          "" keys in
  if catchAll (vars e)
  then (priorities +:+ "1:" +:+ nl) +:+ "  - .*" +:+ nl
  else priorities.

(** Lines 167-196: create the ConfigMap or replace its data. *)
Definition saveConfig (e : Env) (configMapExists : bool)
    (data : gmap string string) : M unit :=
  let ns := caNamespace (vars e) in
  (if negb configMapExists then
     if skipCMCreation (vars e) then
       print ("Skipping creation of configmap: " +:+ ns +:+ "/"
                +:+ caPriorityExpander +:+ nl)
     else
       r <- callCreate ns (newConfigMap caPriorityExpander data) ;;
       match r with
       | Error err => print ("Error creating configmap: " +:+ err +:+ nl)
       | Value _ => print ("Created configmap: " +:+ ns +:+ "/"
                             +:+ caPriorityExpander +:+ nl)
       end
   else
     r <- callGet ns caPriorityExpander ;;
     match r with
     | Error err => print ("Error retrieving configmap: " +:+ err +:+ nl)
     | Value cm =>
         r <- callUpdate ns (setData cm data) ;;
         match r with
         | Error err => print ("Error updating configmap: " +:+ err +:+ nl)
         | Value _ => print ("Updated configmap: " +:+ ns +:+ "/"
                               +:+ caPriorityExpander +:+ nl)
         end
     end)%world.

(** Lines 71-119 of [mainLoop]: the tiers, group names by free addresses. *)
Definition computePriorities (e : Env) : M (gmap Z (list string)) :=
  (when (debug (vars e))
     (Println "DEBUG: mainLoop()" ;;
      when (negb (String.eqb (asgContains (vars e)) ""))
        (Println ("DEBUG: ASG_CONTAINS: " +:+ asgContains (vars e))) ;;
      when (negb (String.eqb (ltContains (vars e)) ""))
        (Println ("DEBUG: LT_CONTAINS: " +:+ ltContains (vars e)))) ;;
   records <- awsSearchEC2ASGByName e (asgContains (vars e)) ;;
   forEachM records (considerASG e) ∅)%world.

(** The payload: the listing under the key ["priorities"]. *)
Definition payload (e : Env) (caPriorities : gmap Z (list string))
    : gmap string string :=
  {[ "priorities" := renderPriorities e caPriorities ]}.

(** Lines 121-196 of [mainLoop]: build the client, look the ConfigMap up,
    render the listing and save it.  Each [return] of the source ends a
    branch here. *)
Definition publish (e : Env) (caPriorities : gmap Z (list string)) : M unit :=
  match BuildConfigFromFlags e with
  | Some err => print ("Unable to load kube config: " +:+ err +:+ nl)
  | None =>
  match NewForConfig e with
  | Some err => print ("Unable to create Kubernetes client: " +:+ err +:+ nl)
  | None =>
      (r <- callGet (caNamespace (vars e)) caPriorityExpander ;;
       let configMapExists := match r with Value _ => true | Error _ => false end in
       let data := payload e caPriorities in
       when (debug (vars e)) (Println (renderPriorities e caPriorities)) ;;
       saveConfig e configMapExists data)%world
  end
  end.

Definition mainLoop (e : Env) : M unit :=
  (caPriorities <- computePriorities e ;;
   publish e caPriorities)%world.


End Program.

Arguments World S : clear implicits.
Arguments M S A : clear implicits.

(** ** A store in memory

    The API server reduced to what the three calls observe: ConfigMaps
    stored by namespace and name.  It serves to run the program on concrete
    inputs; the theorems about [mainLoop] hold for every implementation of
    the interface. *)

Definition storeGet (ns name : string) (s : gmap (string * string) ConfigMap)
    : Reply ConfigMap :=
  match s !! (ns, name) with
  | Some cm => Value cm
  | None => Error ("configmaps " +:+ name +:+ " not found")
  end.

Definition withNamespace (ns : string) (cm : ConfigMap) : ConfigMap :=
  {| Kind := Kind cm; APIVersion := APIVersion cm;
     Meta := {| Name := Name (Meta cm); Namespace := ns; UID := UID (Meta cm);
                ResourceVersion := ResourceVersion (Meta cm);
                Labels := Labels (Meta cm); Annotations := Annotations (Meta cm) |};
     Immutable := Immutable cm; Data := Data cm; BinaryData := BinaryData cm |}.

Definition storeCreate (ns : string) (cm : ConfigMap)
    (s : gmap (string * string) ConfigMap)
    : Reply ConfigMap * gmap (string * string) ConfigMap :=
  match s !! (ns, Name (Meta cm)) with
  | Some _ => (Error ("configmaps " +:+ Name (Meta cm) +:+ " already exists"), s)
  | None => (Value (withNamespace ns cm), <[(ns, Name (Meta cm)) := withNamespace ns cm]> s)
  end.

Definition storeUpdate (ns : string) (cm : ConfigMap)
    (s : gmap (string * string) ConfigMap)
    : Reply ConfigMap * gmap (string * string) ConfigMap :=
  match s !! (ns, Name (Meta cm)) with
  | Some _ => (Value (withNamespace ns cm), <[(ns, Name (Meta cm)) := withNamespace ns cm]> s)
  | None => (Error ("configmaps " +:+ Name (Meta cm) +:+ " not found"), s)
  end.

#[export] Instance memStore : ConfigMapInterface (gmap (string * string) ConfigMap) := {
  Get := λ ns name s, (storeGet ns name s, s);
  Create := storeCreate;
  Update := storeUpdate;
}.

(** The world before a run with nothing printed and nothing sent yet. *)
Definition initWorld {S : Type} (s : S) : World S :=
  {| stdout := []; calls := []; store := s |}.

(** ** Concrete inputs *)

Module Sample.

Definition group (name lt zone : string) : Group :=
  {| AutoScalingGroupName := Some name;
     Group_LaunchTemplate := Some {| LaunchTemplateName := Some lt |};
     Group_MixedInstancesPolicy := None;
     VPCZoneIdentifier := Some zone |}.

(** A group that has its launch template under a mixed-instances policy. *)
Definition mixedGroup (name lt zone : string) : Group :=
  {| AutoScalingGroupName := Some name;
     Group_LaunchTemplate := None;
     Group_MixedInstancesPolicy :=
       Some {| MixedInstancesPolicy_LaunchTemplate :=
                 Some {| LaunchTemplateSpecification_ :=
                           Some {| LaunchTemplateName := Some lt |} |} |};
     VPCZoneIdentifier := Some zone |}.

(** A group with neither a launch template nor a mixed-instances policy. *)
Definition bareGroup (name zone : string) : Group :=
  {| AutoScalingGroupName := Some name;
     Group_LaunchTemplate := None;
     Group_MixedInstancesPolicy := None;
     VPCZoneIdentifier := Some zone |}.

(** An EC2 service that knows the subnets of [free] and answers any other
    id with an error and an output without subnets. *)
Definition ec2Of (free : list (string * Z)) : EC2 :=
  {| DescribeSubnets := λ id,
       match list_to_map (M := gmap string Z) free !! id with
       | Some n => (Some {| Subnets := [ {| SubnetId := Some id;
                                            AvailableIpAddressCount := Some n |} ] |},
                    None)
       | None => (Some {| Subnets := [] |}, Some "InvalidSubnetID.NotFound")
       end |}.

Definition varsOf (asgC ltC : string) (catch skip : bool) : Vars :=
  {| setRegion := "eu-west-1"; caNamespace := "kube-system";
     asgContains := asgC; ltContains := ltC; sleepMinutes := 5;
     catchAll := catch; debug := false; skipCMCreation := skip |}.

(** [range] in the order of [map_to_list]. *)
Definition rangeAsStored (m : gmap Z (list string)) : list Z := (map_to_list m).*1.
(** [range] in the opposite order. *)
Definition rangeReversed (m : gmap Z (list string)) : list Z := reverse (map_to_list m).*1.

Definition envOf (v : Vars) (pages : list (list Group)) (err : option string)
    (ec2 : EC2) : Env :=
  {| vars := v;
     autoscalingClient := {| asgPages := pages; asgErr := err |};
     ec2Client := ec2;
     BuildConfigFromFlags := None;
     NewForConfig := None;
     rangeKeys := rangeAsStored |}.

(** The three groups of the specification's example. *)
Definition abc : list Group :=
  [ group "A" "lt-a" "S1"; group "B" "lt-b" "S2,S3"; group "C" "lt-c" "S4" ].
Definition abcEC2 : EC2 := ec2Of [("S1", 5); ("S2", 5); ("S3", 3); ("S4", 10)].
Definition abcEnv : Env := envOf (varsOf "" "" true false) [abc] None abcEC2.

Definition existing : ConfigMap :=
  {| Kind := "ConfigMap"; APIVersion := "v1";
     Meta := {| Name := caPriorityExpander; Namespace := "kube-system";
                UID := "0c1f"; ResourceVersion := "41";
                Labels := {[ "app" := "cluster-autoscaler" ]};
                Annotations := ∅ |};
     Immutable := None;
     Data := {[ "priorities" := "old"; "other" := "kept?" ]};
     BinaryData := ∅ |}.

Definition storeWith (cm : ConfigMap) : gmap (string * string) ConfigMap :=
  {[ (Namespace (Meta cm), Name (Meta cm)) := cm ]}.

End Sample.

(** ** [init]: the variables from the environment *)

Definition ErrSyntax : string := "invalid syntax".
Definition ErrRange : string := "value out of range".

(** [strconv.ParseBool]: the value and the error. *)
Definition ParseBool (str : string) : bool * option string :=
  if bool_decide (str ∈ ["1"; "t"; "T"; "TRUE"; "true"; "True"]) then (true, None)
  else if bool_decide (str ∈ ["0"; "f"; "F"; "FALSE"; "false"; "False"]) then (false, None)
  else (false, Some ErrSyntax).

(** The value of a decimal digit; none for any other byte. *)
Definition digitOf (c : Ascii.ascii) : option Z :=
  let n := Z.of_N (Ascii.N_of_ascii c) in
  if bool_decide (48 ≤ n ≤ 57) then Some (n - 48) else None.

(** The loop of [strconv.ParseUint] for base 10 and 64 bits: the bytes of
    [s] are read from the left onto [n]; a byte that is no digit ends it
    with 0 and a syntax error, a digit with which the number leaves the 64
    bits ends it at once, without a look at the bytes behind it, with the
    largest number and a range error. *)
Fixpoint parseUint (n : Z) (s : string) : Z * option string :=
  match s with
  | EmptyString => (n, None)
  | String c s' =>
      match digitOf c with
      | None => (0, Some ErrSyntax)
      | Some d =>
          if bool_decide (2 ^ 64 ≤ n * 10 + d) then (2 ^ 64 - 1, Some ErrRange)
          else parseUint (n * 10 + d) s'
      end
  end.

(** [strconv.Atoi]: an optional sign, then the digits as [ParseUint] reads
    them.  No digit at all or a syntax error of [ParseUint] gives 0; a
    number outside [int], the one at which [ParseUint] stopped for its range
    included, gives the nearest bound of [int] and a range error. *)
Definition Atoi (s : string) : Z * option string :=
  let signed :=
    match s with
    | String c rest =>
        if Ascii.eqb c "-" then (true, rest)
        else if Ascii.eqb c "+" then (false, rest)
        else (false, s)
    | EmptyString => (false, s)
    end in
  match signed.2 with
  | EmptyString => (0, Some ErrSyntax)
  | String _ _ =>
      let un := parseUint 0 signed.2 in
      if bool_decide (un.2 = Some ErrSyntax) then (0, Some ErrSyntax)
      else if negb signed.1 && bool_decide (2 ^ 63 ≤ un.1) then (int_max, Some ErrRange)
      else if signed.1 && bool_decide (2 ^ 63 < un.1) then (int_min, Some ErrRange)
      else (if signed.1 then - un.1 else un.1, None)
  end.

(** [init], lines 42-48: the variables read with [os.Getenv] (the empty
    string for a variable that is not set) and parsed; the errors of the
    parsers are dropped. *)
Definition init (Getenv : string → string) : Vars :=
  {| setRegion := Getenv "REGION";
     caNamespace := Getenv "CA_NAMESPACE";
     asgContains := Getenv "ASG_CONTAINS";
     ltContains := Getenv "LT_CONTAINS";
     sleepMinutes := (Atoi (Getenv "SLEEP_MINUTES")).1;
     catchAll := (ParseBool (Getenv "CATCH_ALL")).1;
     debug := (ParseBool (Getenv "DEBUG")).1;
     skipCMCreation := (ParseBool (Getenv "SKIP_CM_CREATION")).1 |}.

(** [time.Minute], in nanoseconds. *)
Definition Minute : Z := 60000000000.

(** [loopSleep = time.Duration(sleepMinutes) * time.Minute], line 45: a
    product of 64-bit integers. *)
Definition loopSleep (v : Vars) : Z := wrap_int (sleepMinutes v * Minute).

(** * Notions used to state the properties *)

(** The sum of a list of counts, in the integers. *)
Definition sumZ (l : list Z) : Z := foldr Z.add 0 l.

Definition descending (keys : list Z) : Prop := StronglySorted (λ a b : Z, b < a) keys.

Definition concatS (l : list string) : string := foldr String.append "" l.

(** The format of the specification: for each tier a line with its score,
    then one line for each of its names. *)
Definition spec_block (t : Z * list string) : string :=
  fmt_d t.1 +:+ ":" +:+ nl +:+ concatS (map (λ n, "  - " +:+ n +:+ nl) t.2).

Definition spec_listing (tiers : list (Z * list string)) : string :=
  concatS (map spec_block tiers).

(** The catch-all tier. *)
Definition catchAllTier : Z * list string := (1, [".*"]).

(** The names stored under a key; none when the key is absent. *)
Definition tier (m : gmap Z (list string)) (k : Z) : list string :=
  default [] (m !! k).

(** The entry a group contributes to the tiers, if any: the body of the
    loop without its printing. *)
Definition entryOf (e : Env) (asg : Group) : Res (option (Z * string)) :=
  (ltName <- ltNameOf asg ;;
   if Contains ltName (ltContains (vars e)) then
     freeIPs <- freeIPsOf (ec2Client e) asg ;;
     n <- ResM.deref (AutoScalingGroupName asg) ;;
     Ok (Some (freeIPs, n))
   else Ok None)%res.

Definition addEntry (m : gmap Z (list string)) (r : option (Z * string))
    : gmap Z (list string) :=
  match r with
  | Some (freeIPs, n) => addToTier m freeIPs n
  | None => m
  end.

(** The names of the entries with key [k], in the order of the entries. *)
Definition namesAt (k : Z) (es : list (option (Z * string))) : list string :=
  omap (λ r, match r with
             | Some (f, n) => if decide (f = k) then Some n else None
             | None => None
             end) es.

(** The test of the name in [awsSearchEC2ASGByName]. *)
Definition nameContains (name : string) (g : Group) : bool :=
  match AutoScalingGroupName g with
  | Some n => Contains n name
  | None => false
  end.

(** The free addresses of one subnet as the loop reads them: the count of
    the first subnet in the output of [DescribeSubnets]. *)
Definition availableCount (ec2 : EC2) (id : string) : option Z :=
  out ← (DescribeSubnets ec2 id).1;
  s ← head (Subnets out);
  AvailableIpAddressCount s.

(** The CapacityScore of the specification: the sum, in the integers, of
    the available-address counts of the group's subnets. *)
Definition spec_CapacityScore (ec2 : EC2) (asg : Group) : option Z :=
  zone ← VPCZoneIdentifier asg;
  counts ← mapM (availableCount ec2) (Split zone ","%char);
  Some (sumZ counts).

(** The body of the loop over the subnets, lines 103-106. *)
Definition addSubnet (ec2 : EC2) (subnetID : string) (freeIPs : Z) : Res Z :=
  (subnet <- ResM.deref (DescribeSubnets ec2 subnetID).1 ;;
   s0 <- ResM.first (Subnets subnet) ;;
   n <- ResM.deref (AvailableIpAddressCount s0) ;;
   Ok (int_add freeIPs n))%res.

(** The environment in which the same pages arrive and the pager reports no
    error. *)
Definition withoutErr (e : Env) : Env :=
  {| vars := vars e;
     autoscalingClient := {| asgPages := asgPages (autoscalingClient e); asgErr := None |};
     ec2Client := ec2Client e;
     BuildConfigFromFlags := BuildConfigFromFlags e;
     NewForConfig := NewForConfig e;
     rangeKeys := rangeKeys e |}.

Definition msgListingFailed (err : string) : string :=
  "Error searching EC2 ASGs by name: " +:+ err +:+ nl.

Section Views.
Context {S : Type} `{!ConfigMapInterface S}.
Implicit Types (w : World S) (e : Env) (m : gmap Z (list string)).

(** A computation that only prints: it sends no request and leaves the
    store alone, whether it ends well or in a fault. *)
Definition onlyPrints {A} (c : M S A) : Prop :=
  ∀ w, calls (c w).2 = calls w ∧ store (c w).2 = store w.

(** What the debug mode prints between the lookup and the save. *)
Definition debugListing e m : list string :=
  if debug (vars e) then [renderPriorities e m +:+ nl] else [].

Definition msgSkipping e : string :=
  "Skipping creation of configmap: " +:+ caNamespace (vars e) +:+ "/"
    +:+ caPriorityExpander +:+ nl.

Definition withStdout (out : list string) w : World S :=
  {| stdout := out; calls := calls w; store := store w |}.

(** A computation uses standard output as a log: it appends to it and
    never reads it, so from a world that differs in what was printed
    before it gives the same result, sends the same requests and prints
    the same lines. *)
Definition logs {A} (c : M S A) : Prop :=
  ∀ w, ∃ out,
    stdout (c w).2 = stdout w ++ out ∧
    ∀ o, c (withStdout o w) = ((c w).1, withStdout (o ++ out) (c w).2).

(** What follows the listing in [mainLoop]. *)
Definition afterListing e (records : list Group) : M S unit :=
  bind (forEachM records (considerASG e) ∅) (publish e).

(** The debug lines at the head of [mainLoop]. *)
Definition header e : M S unit :=
  when (debug (vars e))
    (bind (Println "DEBUG: mainLoop()") (λ _,
     bind (when (negb (String.eqb (asgContains (vars e)) ""))
             (Println ("DEBUG: ASG_CONTAINS: " +:+ asgContains (vars e)))) (λ _,
     when (negb (String.eqb (ltContains (vars e)) ""))
       (Println ("DEBUG: LT_CONTAINS: " +:+ ltContains (vars e)))))).

End Views.

(** The reading of C5 that the program does not satisfy: a cycle whose
    listing fails sends no write and leaves the store as it was. *)
Definition abortsOnListingFailure {S : Type} `{!ConfigMapInterface S}
    (e : Env) (w : World S) : Prop :=
  is_Some (asgErr (autoscalingClient e)) →
  filter (λ c, isWrite c) (calls (mainLoop e w).2) = filter (λ c, isWrite c) (calls w) ∧
  store (mainLoop e w).2 = store w.

(** The reading of the third case of C6 that the program does not
    satisfy: whenever the lookup finds the ConfigMap, the cycle sends the
    request to write it back with the payload as its data. *)
Definition writesBackWhenFound {S : Type} `{!ConfigMapInterface S}
    (e : Env) (m : gmap Z (list string)) (w : World S) : Prop :=
  ∀ found s1,
    Get (caNamespace (vars e)) caPriorityExpander (store w) = (Value found, s1) →
    ∃ cm, CallUpdate (caNamespace (vars e)) cm ∈ calls (publish e m w).2 ∧
          Data cm = payload e m.

Definition abcListing : string :=
  "10:" +:+ nl +:+ "  - C" +:+ nl +:+
  "8:" +:+ nl +:+ "  - B" +:+ nl +:+
  "5:" +:+ nl +:+ "  - A" +:+ nl +:+
  "1:" +:+ nl +:+ "  - .*" +:+ nl.

(** ** Notions for the further properties *)

(** [strings.Join(elems, sep)] for a separator of one byte. *)
Fixpoint Join (elems : list string) (sep : Ascii.ascii) : string :=
  match elems with
  | [] => ""
  | [x] => x
  | x :: rest => x +:+ String sep (Join rest sep)
  end.

(** The byte [c] occurs in [s]. *)
Fixpoint occurs (c : Ascii.ascii) (s : string) : bool :=
  match s with
  | EmptyString => false
  | String x s' => Ascii.eqb x c || occurs c s'
  end.

(** How often the byte [c] occurs in [s]. *)
Fixpoint countByte (c : Ascii.ascii) (s : string) : nat :=
  match s with
  | EmptyString => O
  | String x s' => ((if Ascii.eqb x c then 1 else 0) + countByte c s')%nat
  end.

(** The group has a name. *)
Definition named (g : Group) : Prop := is_Some (AutoScalingGroupName g).

(** The group is kept: its name contains [asgContains] and the name of its
    launch template contains [ltContains]. *)
Definition kept (e : Env) (g : Group) : bool :=
  nameContains (asgContains (vars e)) g &&
  match ltNameOf g with
  | Ok lt => Contains lt (ltContains (vars e))
  | Panic _ => false
  end.

(** The group can be evaluated: it has a launch template name and, when
    that name contains [ltContains], a subnet field all of whose subnets
    have a count. *)
Definition evaluable (e : Env) (g : Group) : Prop :=
  ∃ lt, ltNameOf g = Ok lt ∧
    (Contains lt (ltContains (vars e)) = true →
     ∃ zone, VPCZoneIdentifier g = Some zone ∧
       Forall (λ id, is_Some (availableCount (ec2Client e) id)) (Split zone ","%char)).

(** The number of names in all tiers. *)
Definition totalNames (m : gmap Z (list string)) : nat :=
  map_fold (λ _ names n, (length names + n)%nat) O m.


(** An environment as [os.Getenv] sees it: the listed variables, the empty
    string for all others. *)
Definition getenvOf (l : list (string * string)) (name : string) : string :=
  default "" (list_to_map (M := gmap string string) l !! name).

(** Tiers without an empty one. *)
Definition noEmptyTier (m : gmap Z (list string)) : Prop :=
  ∀ k names, m !! k = Some names → names ≠ [].

(** The entries that add a name. *)
Definition adding (es : list (option (Z * string))) : nat :=
  length (filter (λ r : option (Z * string), is_Some r) es).



(** Two stores that refuse every write, to run the paths on which a write
    fails: one without the ConfigMap, one that holds a single ConfigMap. *)
#[export] Instance refusingEmpty : ConfigMapInterface unit := {
  Get := λ _ name s, (Error ("configmaps " +:+ name +:+ " not found"), s);
  Create := λ _ _ s, (Error "forbidden", s);
  Update := λ _ _ s, (Error "forbidden", s);
}.

#[export] Instance refusingHolder : ConfigMapInterface ConfigMap := {
  Get := λ _ _ s, (Value s, s);
  Create := λ _ _ s, (Error "already exists", s);
  Update := λ _ _ s, (Error "forbidden", s);
}.

(** An API server that answers the reads from a script, one answer for
    each read, and with an error once the script is used up; it accepts
    every write.  It runs the paths on which the second read of a cycle
    differs from the first. *)
#[export] Instance scripted : ConfigMapInterface (list (Reply ConfigMap)) := {
  Get := λ _ _ s,
    match s with
    | r :: s' => (r, s')
    | [] => (Error "connection refused", [])
    end;
  Create := λ _ cm s, (Value cm, s);
  Update := λ _ cm s, (Value cm, s);
}.

(** The environment with the variable [debug] set to [b]. *)
Definition withDebug (b : bool) (e : Env) : Env :=
  {| vars := {| setRegion := setRegion (vars e);
                caNamespace := caNamespace (vars e);
                asgContains := asgContains (vars e);
                ltContains := ltContains (vars e);
                sleepMinutes := sleepMinutes (vars e);
                catchAll := catchAll (vars e);
                debug := b;
                skipCMCreation := skipCMCreation (vars e) |};
     autoscalingClient := autoscalingClient e;
     ec2Client := ec2Client e;
     BuildConfigFromFlags := BuildConfigFromFlags e;
     NewForConfig := NewForConfig e;
     rangeKeys := rangeKeys e |}.

(** The loop over the groups without its printing. *)
Definition tiersOf (e : Env) (records : list Group) : Res (gmap Z (list string)) :=
  forEach records (λ asg m, ResM.bind (entryOf e asg) (λ r, Ok (addEntry m r))) ∅.

(** ** Further concrete inputs *)

Module Runs.
Import Sample.

Definition tiersABC : gmap Z (list string) := {[ 5 := ["A"]; 8 := ["B"]; 10 := ["C"] ]}.

Definition emptyStore : World (gmap (string * string) ConfigMap) := initWorld ∅.
Definition withExisting : World (gmap (string * string) ConfigMap) :=
  initWorld (storeWith existing).

Definition skipEnv : Env := envOf (varsOf "" "" true true) [abc] None abcEC2.

(** The ConfigMap after another writer has touched it. *)
Definition newer : ConfigMap :=
  {| Kind := "ConfigMap"; APIVersion := "v1";
     Meta := {| Name := caPriorityExpander; Namespace := "kube-system";
                UID := "0c1f"; ResourceVersion := "42";
                Labels := {[ "app" := "cluster-autoscaler"; "tier" := "infra" ]};
                Annotations := ∅ |};
     Immutable := None;
     Data := {[ "priorities" := "newer" ]};
     BinaryData := ∅ |}.

(** An API server that answers the first read of the cycle and fails the
    second. *)
Definition answersOnce : World (list (Reply ConfigMap)) :=
  initWorld [Value existing].

(** An API server whose second read returns the ConfigMap in a newer state
    than the first. *)
Definition answersTwice : World (list (Reply ConfigMap)) :=
  initWorld [Value existing; Value newer].
End Runs.

Module Orders.
Import Sample.

(** The sample environment with another order of [range]. *)
Definition abcEnvWith (rk : gmap Z (list string) → list Z) : Env :=
  {| vars := vars abcEnv;
     autoscalingClient := autoscalingClient abcEnv;
     ec2Client := ec2Client abcEnv;
     BuildConfigFromFlags := None;
     NewForConfig := None;
     rangeKeys := rk |}.
End Orders.

Module Failing.
Import Sample.

(** A listing in which the second group has no template reference. *)
Definition bareEnv : Env :=
  envOf (varsOf "" "" true false)
    [[group "A" "lt-a" "S1"; bareGroup "broken" "S1"; group "C" "lt-c" "S4"]]
    None abcEC2.

(** A listing in which the second group names a subnet that EC2 does not
    know. *)
Definition lostSubnetEnv : Env :=
  envOf (varsOf "" "" true false)
    [[group "A" "lt-a" "S1"; group "B" "lt-b" "S2,S9"; group "C" "lt-c" "S4"]]
    None abcEC2.

(** A listing in which the second group has no subnet. *)
Definition noSubnetEnv : Env :=
  envOf (varsOf "" "" true false)
    [[group "A" "lt-a" "S1"; group "empty" "lt-e" ""; group "C" "lt-c" "S4"]]
    None abcEC2.
End Failing.

Module Transport.
Import Sample.

(** The first page arrived, then the request for the next one failed. *)
Definition failEnv : Env :=
  envOf (varsOf "" "" true false) [[group "A" "lt-a" "S1"]]
    (Some "RequestError: send request failed") abcEC2.

Definition partialListing : string :=
  "5:" +:+ nl +:+ "  - A" +:+ nl +:+ "1:" +:+ nl +:+ "  - .*" +:+ nl.
End Transport.

(** * Properties *)

(** ** Strings and integers *)

Lemma append_assoc (a b c : string) : (a +:+ b) +:+ c = a +:+ (b +:+ c).
Proof.
  induction a as [|x a IH]; [done|].
  change (String x ((a +:+ b) +:+ c) = String x (a +:+ (b +:+ c))).
  by rewrite IH.
Qed.

Lemma append_empty_r (a : string) : a +:+ "" = a.
Proof.
  induction a as [|x a IH]; [done|].
  change (String x (a +:+ "") = String x a). by rewrite IH.
Qed.

Lemma Contains_empty (s : string) : Contains s "" = true.
Proof. by destruct s. Qed.

Lemma Split_empty (sep : Ascii.ascii) : Split "" sep = [""].
Proof. reflexivity. Qed.

Lemma SplitFrom_nonempty (cur s : string) (sep : Ascii.ascii) :
  SplitFrom cur s sep ≠ [].
Proof.
  revert cur. induction s as [|c s IH]; intros cur; simpl; [done|].
  destruct (Ascii.eqb c sep); [done|apply IH].
Qed.

Lemma wrap_int_small (z : Z) : int_min ≤ z ≤ int_max → wrap_int z = z.
Proof.
  unfold int_min, int_max, wrap_int, int_bits. intros Hz.
  rewrite Z.mod_small; lia.
Qed.

Lemma wrap_int_add_l (a b : Z) : wrap_int (wrap_int a + b) = wrap_int (a + b).
Proof.
  unfold wrap_int. f_equal.
  replace ((a + 2 ^ (int_bits - 1)) mod 2 ^ int_bits - 2 ^ (int_bits - 1) + b
           + 2 ^ (int_bits - 1))
    with ((a + 2 ^ (int_bits - 1)) mod 2 ^ int_bits + b) by lia.
  rewrite Zplus_mod_idemp_l. f_equal. lia.
Qed.

Lemma wrap_int_range (z : Z) : int_min ≤ wrap_int z ≤ int_max.
Proof.
  unfold int_min, int_max, wrap_int, int_bits.
  pose proof (Z.mod_pos_bound (z + 2 ^ (64 - 1)) (2 ^ 64)) as Hb. lia.
Qed.

(** ** Sorting the keys *)

Lemma sortReverse_Permutation (keys : list Z) : sortReverse keys ≡ₚ keys.
Proof. apply merge_sort_Permutation. Qed.

Lemma sortReverse_sorted (keys : list Z) : StronglySorted (flip Z.le) (sortReverse keys).
Proof.
  apply StronglySorted_merge_sort.
  - intros x y z. unfold flip. lia.
  - intros x y. unfold flip. lia.
Qed.

(** The result of the sort depends on the keys, not on the order in which
    [range] produced them. *)
Lemma sortReverse_order (k1 k2 : list Z) : k1 ≡ₚ k2 → sortReverse k1 = sortReverse k2.
Proof.
  intros Hp.
  assert (AntiSymm (=) (flip Z.le)) by (intros x y; unfold flip; lia).
  apply (StronglySorted_unique (flip Z.le)).
  - apply sortReverse_sorted.
  - apply sortReverse_sorted.
  - by rewrite !sortReverse_Permutation.
Qed.

Lemma sorted_NoDup_descending (l : list Z) :
  StronglySorted (flip Z.le) l → NoDup l → descending l.
Proof.
  unfold descending. induction 1 as [|x l Hs IH Hx]; intros Hnd; [constructor|].
  apply NoDup_cons in Hnd as [Hnotin Hnd]. constructor; [by apply IH|].
  rewrite Forall_forall in Hx |- *. intros y Hy.
  specialize (Hx y Hy). unfold flip in Hx.
  assert (x ≠ y) by (intros ->; done). lia.
Qed.

Lemma map_keys_NoDup (m : gmap Z (list string)) : NoDup (map_to_list m).*1.
Proof. apply NoDup_fst_map_to_list. Qed.

Lemma elem_of_map_keys (m : gmap Z (list string)) (k : Z) :
  k ∈ (map_to_list m).*1 ↔ is_Some (m !! k).
Proof.
  rewrite list_elem_of_fmap. split.
  - intros [[k' v] [-> Hin]]. apply elem_of_map_to_list in Hin. by exists v.
  - intros [v Hv]. exists (k, v). split; [done|]. by apply elem_of_map_to_list.
Qed.

(** The keys the listing is rendered from: every key of the map once, in
    strictly decreasing order, whatever the order of [range]. *)
Lemma sorted_keys_spec (e : Env) (m : gmap Z (list string)) :
  rangeOk e →
  descending (sortReverse (rangeKeys e m)) ∧
  (∀ k, k ∈ sortReverse (rangeKeys e m) ↔ is_Some (m !! k)) ∧
  sortReverse (rangeKeys e m) = sortReverse (map_to_list m).*1.
Proof.
  intros Hr. split; [|split].
  - apply sorted_NoDup_descending; [apply sortReverse_sorted|].
    rewrite sortReverse_Permutation, (Hr m). apply map_keys_NoDup.
  - intros k. rewrite sortReverse_Permutation, (Hr m). apply elem_of_map_keys.
  - apply sortReverse_order, Hr.
Qed.

(** ** The listing as text *)

Lemma concatS_app (l1 l2 : list string) :
  concatS (l1 ++ l2) = concatS l1 +:+ concatS l2.
Proof.
  induction l1 as [|x l1 IH]; [done|].
  change (x +:+ concatS (l1 ++ l2) = (x +:+ concatS l1) +:+ concatS l2).
  by rewrite IH, append_assoc.
Qed.

Lemma foldl_names (acc : string) (names : list string) :
  foldl (λ priorities asg, priorities +:+ "  - " +:+ asg +:+ nl) acc names
  = acc +:+ concatS (map (λ n, "  - " +:+ n +:+ nl) names).
Proof.
  revert acc. induction names as [|n names IH]; intros acc.
  - simpl. by rewrite append_empty_r.
  - simpl foldl. rewrite IH.
    change (concatS (map (λ n0, "  - " +:+ n0 +:+ nl) (n :: names)))
      with (("  - " +:+ n +:+ nl) +:+ concatS (map (λ n0, "  - " +:+ n0 +:+ nl) names)).
    by rewrite !append_assoc.
Qed.

Lemma renderTier_block (acc : string) (key : Z) (names : list string) :
  renderTier acc key names = acc +:+ spec_block (key, names).
Proof.
  unfold renderTier, spec_block. rewrite foldl_names. simpl fst; simpl snd.
  by rewrite !append_assoc.
Qed.

Lemma foldl_renderTier (m : gmap Z (list string)) (acc : string) (keys : list Z) :
  foldl (λ priorities key, renderTier priorities key (default [] (m !! key))) acc keys
  = acc +:+ spec_listing (map (λ k, (k, tier m k)) keys).
Proof.
  revert acc. induction keys as [|k keys IH]; intros acc.
  - simpl. unfold spec_listing. simpl. by rewrite append_empty_r.
  - simpl foldl. rewrite IH, renderTier_block. unfold spec_listing.
    change (concatS (map spec_block (map (λ k0, (k0, tier m k0)) (k :: keys))))
      with (spec_block (k, tier m k)
            +:+ concatS (map spec_block (map (λ k0, (k0, tier m k0)) keys))).
    by rewrite append_assoc.
Qed.

Lemma spec_block_catchAll : spec_block catchAllTier = ("1:" +:+ nl) +:+ "  - .*" +:+ nl.
Proof. reflexivity. Qed.

(** [renderPriorities] writes the blocks of the sorted keys and then, when
    [catchAll] is set, the catch-all block. *)
Lemma renderPriorities_listing (e : Env) (m : gmap Z (list string)) :
  renderPriorities e m =
  spec_listing (map (λ k, (k, tier m k)) (sortReverse (rangeKeys e m))
                ++ (if catchAll (vars e) then [catchAllTier] else [])).
Proof.
  unfold renderPriorities. rewrite foldl_renderTier.
  change ("" +:+ ?x) with x.
  unfold spec_listing. rewrite map_app, concatS_app.
  destruct (catchAll (vars e)).
  - change (concatS (map spec_block [catchAllTier]))
      with (spec_block catchAllTier +:+ "").
    rewrite append_empty_r, spec_block_catchAll.
    change (String.app ?a ?b) with (a +:+ b).
    by rewrite !append_assoc.
  - simpl (concatS (map spec_block [])). by rewrite append_empty_r.
Qed.

(** The listing does not depend on the order of [range]. *)
Lemma renderPriorities_order (e1 e2 : Env) (m : gmap Z (list string)) :
  rangeOk e1 → rangeOk e2 → catchAll (vars e1) = catchAll (vars e2) →
  renderPriorities e1 m = renderPriorities e2 m.
Proof.
  intros H1 H2 Hc. rewrite !renderPriorities_listing, Hc.
  by rewrite (sortReverse_order (rangeKeys e1 m) (rangeKeys e2 m))
    by (by rewrite (H1 m), (H2 m)).
Qed.

(** C2: the computed tiers are rendered in strictly decreasing order of
    their scores, one block for each key of the map; with [catchAll] set,
    the block of score 1 with the single entry [.*] follows them as a block
    of its own, also when one of the computed keys is 1. *)
Theorem listing_descending_catch_all_last
    (e : Env) (caPriorities : gmap Z (list string)) :
  rangeOk e →
  ∃ keys : list Z,
    descending keys ∧
    (∀ k, k ∈ keys ↔ is_Some (caPriorities !! k)) ∧
    renderPriorities e caPriorities =
      spec_listing (map (λ k, (k, tier caPriorities k)) keys
                    ++ (if catchAll (vars e) then [(1, [".*"])] else [])).
Proof.
  intros Hr. exists (sortReverse (rangeKeys e caPriorities)).
  destruct (sorted_keys_spec e caPriorities Hr) as (Hd & Hk & _).
  split; [exact Hd|]. split; [exact Hk|]. apply renderPriorities_listing.
Qed.

Lemma listing_descending_catch_all_last_witness :
  rangeOk Sample.abcEnv ∧
  ∃ keys : list Z,
    descending keys ∧
    (∀ k, k ∈ keys ↔ is_Some (({[ 1 := ["X"]; 7 := ["Y"] ]} : gmap Z (list string)) !! k)) ∧
    renderPriorities Sample.abcEnv {[ 1 := ["X"]; 7 := ["Y"] ]} =
      spec_listing (map (λ k, (k, tier {[ 1 := ["X"]; 7 := ["Y"] ]} k)) keys
                    ++ [(1, [".*"])]).
Proof.
  split.
  - intros m. reflexivity.
  - apply (listing_descending_catch_all_last Sample.abcEnv {[ 1 := ["X"]; 7 := ["Y"] ]}).
    intros m. reflexivity.
Defined.

(** A computed tier of score 1 and the catch-all tier stay two blocks. *)
Example listing_two_blocks_of_score_1 :
  renderPriorities Sample.abcEnv {[ 1 := ["X"]; 7 := ["Y"] ]} =
  "7:" +:+ nl +:+ "  - Y" +:+ nl +:+
  "1:" +:+ nl +:+ "  - X" +:+ nl +:+
  "1:" +:+ nl +:+ "  - .*" +:+ nl.
Proof. vm_compute. reflexivity. Qed.

(** ** Running the loops *)

Lemma tier_addToTier (m : gmap Z (list string)) (f k : Z) (n : string) :
  tier (addToTier m f n) k = tier m k ++ (if decide (f = k) then [n] else []).
Proof.
  unfold tier, addToTier.
  destruct (m !! f) as [names|] eqn:Hf.
  - destruct (decide (f = k)) as [->|Hne].
    + by rewrite lookup_insert_eq, Hf.
    + rewrite lookup_insert_ne by done. by rewrite app_nil_r.
  - destruct (decide (f = k)) as [->|Hne].
    + by rewrite lookup_insert_eq, Hf.
    + rewrite lookup_insert_ne by done. by rewrite app_nil_r.
Qed.

Lemma tier_foldl_addEntry (es : list (option (Z * string)))
    (m : gmap Z (list string)) (k : Z) :
  tier (foldl addEntry m es) k = tier m k ++ namesAt k es.
Proof.
  revert m. induction es as [|r es IH]; intros m.
  - simpl. by rewrite app_nil_r.
  - simpl foldl. rewrite IH. destruct r as [[f n]|]; simpl.
    + rewrite tier_addToTier. unfold namesAt. simpl.
      destruct (decide (f = k)); simpl; by rewrite <- ?app_assoc, ?app_nil_r.
    + done.
Qed.

Lemma elem_of_namesAt (k : Z) (n : string) (es : list (option (Z * string))) :
  n ∈ namesAt k es ↔ Some (k, n) ∈ es.
Proof.
  unfold namesAt. rewrite list_elem_of_omap. split.
  - intros [r [Hin Hr]]. destruct r as [[f n']|]; [|done].
    destruct (decide (f = k)) as [->|]; [|done]. by simplify_eq.
  - intros Hin. exists (Some (k, n)). split; [done|]. simpl.
    by rewrite decide_True.
Qed.

(** The callback keeps the groups whose name contains [name], behind those
    it already has. *)
Lemma forEach_page_Ok (name : string) (page records records' : list Group) :
  forEach page (λ group records,
      n <- ResM.deref (AutoScalingGroupName group) ;;
      Ok (if Contains n name then records ++ [group] else records))%res records
    = Ok records' →
  records' = records ++ filter (λ g, nameContains name g) page.
Proof.
  revert records. induction page as [|g page IH]; intros records; simpl.
  - intros [= <-]. by rewrite app_nil_r.
  - destruct (AutoScalingGroupName g) as [n|] eqn:Hn; simpl; [|done].
    intros Hrest. apply IH in Hrest. subst records'.
    assert (nameContains name g = Contains n name) as Hc
      by (unfold nameContains; by rewrite Hn).
    rewrite filter_cons.
    destruct (decide (nameContains name g)) as [Hd|Hd]; rewrite Hc in Hd;
      destruct (Contains n name); try done.
    by rewrite <- app_assoc.
Qed.

Lemma pages_Ok (name : string) (pages : list (list Group)) (err : option string)
    (records records' : list Group) :
  DescribeAutoScalingGroupsPages pages err (pageCallback name) records = Ok records' →
  records' = records ++ filter (λ g, nameContains name g) (concat pages).
Proof.
  revert records. induction pages as [|page rest IH]; intros records; simpl.
  - intros [= <-]. by rewrite app_nil_r.
  - unfold pageCallback at 1.
    destruct (forEach page _ records) as [recs|] eqn:Hp; simpl; [|done].
    apply forEach_page_Ok in Hp. subst recs.
    rewrite filter_app, app_assoc.
    destruct rest as [|page' rest].
    + simpl. destruct (bool_decide (err = None)); simpl.
      * intros [= <-]. by rewrite app_nil_r.
      * intros [= <-]. by rewrite app_nil_r.
    + rewrite bool_decide_false by done. simpl negb. cbv iota.
      apply IH.
Qed.

(** The records the pager hands back do not depend on whether it ends with
    an error. *)
Lemma pages_err_irrelevant (name : string) (pages : list (list Group))
    (err1 err2 : option string) (records : list Group) :
  DescribeAutoScalingGroupsPages pages err1 (pageCallback name) records
  = DescribeAutoScalingGroupsPages pages err2 (pageCallback name) records.
Proof.
  revert records. induction pages as [|page rest IH]; intros records; simpl; [done|].
  unfold pageCallback.
  destruct (forEach page _ records) as [recs|]; simpl; [|done].
  destruct rest as [|page' rest].
  - simpl. by destruct (bool_decide (err1 = None)), (bool_decide (err2 = None)).
  - rewrite !bool_decide_false by done. simpl. apply IH.
Qed.

Section Runs.
Context {S : Type} `{!ConfigMapInterface S}.
Implicit Types (w : World S) (e : Env) (m : gmap Z (list string)).

Lemma bind_Ok_inv {A B} (c : M S A) (f : A → M S B) w (b : B) w' :
  bind c f w = (Ok b, w') → ∃ a w1, c w = (Ok a, w1) ∧ f a w1 = (Ok b, w').
Proof.
  unfold bind. destruct (c w) as [[a|msg] w1]; [|done]. intros Hf. by exists a, w1.
Qed.

Lemma lift_Ok_inv {A} (r : Res A) w (a : A) w' :
  lift r w = (Ok a, w') → r = Ok a ∧ w' = w.
Proof. unfold lift. by intros [= -> ->]. Qed.

Lemma ret_Ok_inv {A} (x a : A) w w' :
  ret x w = (Ok a, w') → a = x ∧ w' = w.
Proof. unfold ret. by intros [= -> ->]. Qed.

Lemma onlyPrints_ret {A} (a : A) : onlyPrints (S := S) (ret a).
Proof. by intros w. Qed.

Lemma onlyPrints_lift {A} (r : Res A) : onlyPrints (S := S) (lift r).
Proof. by intros w. Qed.

Lemma onlyPrints_print (s : string) : onlyPrints (S := S) (print s).
Proof. by intros w. Qed.

Lemma onlyPrints_Println (s : string) : onlyPrints (S := S) (Println s).
Proof. by intros w. Qed.

Lemma onlyPrints_bind {A B} (c : M S A) (f : A → M S B) :
  onlyPrints c → (∀ a, onlyPrints (S := S) (f a)) → onlyPrints (S := S) (bind c f).
Proof.
  intros Hc Hf w. unfold bind. specialize (Hc w).
  destruct (c w) as [[a|msg] w1]; simpl in Hc.
  - destruct (Hf a w1) as [H1 H2]. destruct Hc as [H3 H4]. split; congruence.
  - exact Hc.
Qed.

Lemma onlyPrints_when (b : bool) (c : M S unit) :
  onlyPrints c → onlyPrints (S := S) (when b c).
Proof. destruct b; [done|]. intros _. apply onlyPrints_ret. Qed.

Lemma onlyPrints_forEachM {A St} (xs : list A) (body : A → St → M S St) (st : St) :
  (∀ x st, onlyPrints (S := S) (body x st)) → onlyPrints (S := S) (forEachM xs body st).
Proof.
  intros Hb. revert st. induction xs as [|x xs IH]; intros st; simpl.
  - apply onlyPrints_ret.
  - apply onlyPrints_bind; [apply Hb|apply IH].
Qed.

Create HintDb prints.
Hint Resolve onlyPrints_ret onlyPrints_lift onlyPrints_print onlyPrints_Println
  onlyPrints_when : prints.

Ltac prints :=
  repeat first
    [ apply onlyPrints_bind; [|intros ?]
    | apply onlyPrints_when
    | apply onlyPrints_forEachM; intros ? ?
    | solve [auto with prints]
    | match goal with |- onlyPrints (S := S) (if ?b then _ else _) => destruct b end
    | match goal with |- onlyPrints (S := S) (match ?o with Some _ => _ | None => _ end) =>
        destruct o end ].

Lemma onlyPrints_considerASG e asg m : onlyPrints (S := S) (considerASG e asg m).
Proof. unfold considerASG. prints. Qed.

Lemma onlyPrints_awsSearch e name : onlyPrints (S := S) (awsSearchEC2ASGByName e name).
Proof. unfold awsSearchEC2ASGByName. prints. Qed.

Lemma onlyPrints_computePriorities e : onlyPrints (S := S) (computePriorities e).
Proof.
  unfold computePriorities. prints.
Qed.

(** A group that is taken through the body of the loop without a fault
    has an entry, and the body adds it. *)
Lemma considerASG_Ok e asg m w m' w' :
  considerASG e asg m w = (Ok m', w') →
  ∃ r, entryOf e asg = Ok r ∧ m' = addEntry m r.
Proof.
  unfold considerASG, entryOf. intros H.
  apply bind_Ok_inv in H as (? & w1 & _ & H).
  apply bind_Ok_inv in H as (ltName & w2 & Hlt & H).
  apply lift_Ok_inv in Hlt as [-> ->]. simpl.
  destruct (Contains ltName (ltContains (vars e))).
  - apply bind_Ok_inv in H as (? & w3 & _ & H).
    apply bind_Ok_inv in H as (freeIPs & w4 & Hf & H).
    apply lift_Ok_inv in Hf as [-> ->]. simpl.
    apply bind_Ok_inv in H as (n & w5 & Hn & H).
    apply lift_Ok_inv in Hn as [-> ->]. simpl.
    apply bind_Ok_inv in H as (? & w6 & _ & H).
    apply ret_Ok_inv in H as [-> ->].
    by exists (Some (freeIPs, n)).
  - apply ret_Ok_inv in H as [-> ->]. by exists None.
Qed.

Lemma forEachM_considerASG_Ok e (records : list Group) m w m' w' :
  forEachM records (considerASG e) m w = (Ok m', w') →
  ∃ es, Forall2 (λ asg r, entryOf e asg = Ok r) records es ∧
        m' = foldl addEntry m es.
Proof.
  revert m w. induction records as [|asg records IH]; intros m w; simpl.
  - intros H. apply ret_Ok_inv in H as [-> ->]. exists []. by split; [constructor|].
  - intros H. apply bind_Ok_inv in H as (m1 & w1 & H1 & H).
    apply considerASG_Ok in H1 as (r & Hr & ->).
    apply IH in H as (es & Hes & ->).
    exists (r :: es). by split; [constructor|].
Qed.

Lemma awsSearch_Ok e name w records w' :
  awsSearchEC2ASGByName e name w = (Ok records, w') →
  records = filter (λ g, nameContains name g) (concat (asgPages (autoscalingClient e))).
Proof.
  unfold awsSearchEC2ASGByName. intros H.
  apply bind_Ok_inv in H as (recs & w1 & Hp & H).
  apply lift_Ok_inv in Hp as [Hp ->].
  apply pages_Ok in Hp. simpl in Hp. subst recs.
  apply bind_Ok_inv in H as (? & w2 & _ & H).
  by apply ret_Ok_inv in H as [-> ->].
Qed.

(** The tiers of a run without fault: the entries of the groups whose
    name contains [asgContains], in the order of the listing, added one
    after the other to the empty map. *)
Lemma computePriorities_Ok e w caPriorities w' :
  computePriorities e w = (Ok caPriorities, w') →
  ∃ es,
    Forall2 (λ asg r, entryOf e asg = Ok r)
      (filter (λ g, nameContains (asgContains (vars e)) g)
              (concat (asgPages (autoscalingClient e)))) es ∧
    caPriorities = foldl addEntry ∅ es.
Proof.
  unfold computePriorities. intros H.
  apply bind_Ok_inv in H as (? & w1 & _ & H).
  apply bind_Ok_inv in H as (records & w2 & Hrec & H).
  apply awsSearch_Ok in Hrec as ->.
  by apply forEachM_considerASG_Ok in H.
Qed.

(** When a selected group has no entry because its evaluation faults, the
    whole computation of the tiers ends in a fault. *)
Lemma computePriorities_Panic e w :
  Exists (λ asg, ∃ msg, entryOf e asg = Panic msg)
    (filter (λ g, nameContains (asgContains (vars e)) g)
            (concat (asgPages (autoscalingClient e)))) →
  ∃ msg, (computePriorities e w).1 = Panic msg.
Proof.
  intros Hex. destruct (computePriorities e w) as [[caP|msg] w'] eqn:Hrun.
  - apply computePriorities_Ok in Hrun as (es & Hes & _).
    apply Exists_exists in Hex as (asg & Hin & msg & Hmsg).
    apply list_elem_of_lookup in Hin as [i Hi].
    destruct (Forall2_lookup_l _ _ _ _ _ Hes Hi) as (r & _ & Hr). congruence.
  - by exists msg.
Qed.

(** A fault while the tiers are computed is the result of [mainLoop]: no
    request has been sent and the store is as it was. *)
Lemma mainLoop_Panic e w msg :
  (computePriorities e w).1 = Panic msg →
  (mainLoop e w).1 = Panic msg ∧
  calls (mainLoop e w).2 = calls w ∧ store (mainLoop e w).2 = store w.
Proof.
  intros Hp. pose proof (onlyPrints_computePriorities e w) as Hq.
  unfold mainLoop, bind.
  destruct (computePriorities e w) as [[caP|msg'] w1]; simpl in *; [done|].
  injection Hp as ->. split; [reflexivity|exact Hq].
Qed.

End Runs.

(** ** Capacity scores *)

Lemma freeIPsOf_unfold (ec2 : EC2) (asg : Group) :
  freeIPsOf ec2 asg =
  ResM.bind (ResM.deref (VPCZoneIdentifier asg))
    (λ zone, forEach (Split zone ","%char) (addSubnet ec2) 0).
Proof. reflexivity. Qed.

Lemma addSubnet_Ok (ec2 : EC2) (id : string) (acc acc' : Z) :
  addSubnet ec2 id acc = Ok acc' →
  ∃ c, availableCount ec2 id = Some c ∧ acc' = int_add acc c.
Proof.
  unfold addSubnet, availableCount.
  destruct (DescribeSubnets ec2 id).1 as [out|]; simpl; [|done].
  destruct (Subnets out) as [|s0 rest]; simpl; [done|].
  destruct (AvailableIpAddressCount s0) as [c|]; simpl; [|done].
  intros [= <-]. by exists c.
Qed.

Lemma forEach_addSubnet_Ok (ec2 : EC2) (ids : list string) (acc f : Z) :
  forEach ids (addSubnet ec2) acc = Ok f →
  ∃ counts, mapM (availableCount ec2) ids = Some counts ∧ f = foldl int_add acc counts.
Proof.
  revert acc. induction ids as [|id ids IH]; intros acc; simpl.
  - intros [= <-]. by exists [].
  - destruct (addSubnet ec2 id acc) as [acc'|] eqn:Hb; simpl; [|done].
    apply addSubnet_Ok in Hb as (c & Hc & ->).
    intros Hrest. apply IH in Hrest as (counts & Hcounts & ->).
    exists (c :: counts). split; [|done].
    rewrite Hc. simpl. by rewrite Hcounts.
Qed.

Lemma foldl_int_add (a : Z) (counts : list Z) :
  foldl int_add (wrap_int a) counts = wrap_int (a + sumZ counts).
Proof.
  revert a. induction counts as [|c counts IH]; intros a; simpl.
  - by rewrite Z.add_0_r.
  - unfold int_add at 2. rewrite wrap_int_add_l, IH. f_equal. lia.
Qed.

(** The sum computed by the loop is the specification's score, reduced to
    the range of [int]. *)
Lemma freeIPsOf_Ok (ec2 : EC2) (asg : Group) (f : Z) :
  freeIPsOf ec2 asg = Ok f →
  ∃ score, spec_CapacityScore ec2 asg = Some score ∧ f = wrap_int score.
Proof.
  rewrite freeIPsOf_unfold. unfold spec_CapacityScore.
  destruct (VPCZoneIdentifier asg) as [zone|]; simpl; [|done].
  intros Hloop. apply forEach_addSubnet_Ok in Hloop as (counts & -> & ->).
  exists (sumZ counts). split; [done|].
  change 0 with (wrap_int 0) at 1. by rewrite foldl_int_add.
Qed.

Lemma entryOf_Some (e : Env) (asg : Group) (f : Z) (n : string) :
  entryOf e asg = Ok (Some (f, n)) →
  AutoScalingGroupName asg = Some n ∧ freeIPsOf (ec2Client e) asg = Ok f.
Proof.
  unfold entryOf. destruct (ltNameOf asg) as [lt|]; simpl; [|done].
  destruct (Contains lt (ltContains (vars e))); [|done].
  destruct (freeIPsOf (ec2Client e) asg) as [f'|]; simpl; [|done].
  destruct (AutoScalingGroupName asg) as [n'|]; simpl; [|done].
  by intros [= -> ->].
Qed.

Lemma entryOf_kept (e : Env) (asg : Group) (lt : string) (r : option (Z * string)) :
  ltNameOf asg = Ok lt → Contains lt (ltContains (vars e)) = true →
  entryOf e asg = Ok r →
  ∃ f n, r = Some (f, n).
Proof.
  unfold entryOf. intros -> Hc. simpl. rewrite Hc.
  destruct (freeIPsOf (ec2Client e) asg) as [f|]; simpl; [|done].
  destruct (AutoScalingGroupName asg) as [n|]; simpl; [|done].
  intros [= <-]. by exists f, n.
Qed.

Section Tiering.
Context {S : Type} `{!ConfigMapInterface S}.

(** C1: in a run of the tiering that ends without fault, over groups
    with distinct names, a group whose name contains [asgContains] and
    whose launch template's name contains [ltContains] has a capacity
    score, the sum of the available-address counts of its subnets; when
    that sum is in the range of [int], the group's name is in the tier
    keyed by exactly that sum, and in no tier with another key. *)
Theorem kept_group_in_exactly_its_score_tier
    (e : Env) (w w' : World S) (caPriorities : gmap Z (list string))
    (asg : Group) (n lt : string) :
  computePriorities e w = (Ok caPriorities, w') →
  NoDup (AutoScalingGroupName <$> concat (asgPages (autoscalingClient e))) →
  asg ∈ concat (asgPages (autoscalingClient e)) →
  AutoScalingGroupName asg = Some n →
  Contains n (asgContains (vars e)) = true →
  ltNameOf asg = Ok lt →
  Contains lt (ltContains (vars e)) = true →
  ∃ score,
    spec_CapacityScore (ec2Client e) asg = Some score ∧
    (int_min ≤ score ≤ int_max →
     n ∈ tier caPriorities score ∧
     ∀ k, n ∈ tier caPriorities k → k = score).
Proof.
  intros Hrun Hnd Hin Hn Hname Hlt Htpl.
  apply computePriorities_Ok in Hrun as (es & Hes & ->).
  set (records := filter (λ g, nameContains (asgContains (vars e)) g)
                    (concat (asgPages (autoscalingClient e)))) in *.
  assert (asg ∈ records) as Hrec.
  { apply list_elem_of_filter. split; [|done].
    unfold nameContains. by rewrite Hn, Hname. }
  assert (NoDup (AutoScalingGroupName <$> records)) as Hnd'.
  { eapply sublist_NoDup; [exact Hnd|]. apply fmap_sublist, sublist_filter. }
  apply list_elem_of_lookup in Hrec as [i Hi].
  destruct (Forall2_lookup_l _ _ _ _ _ Hes Hi) as (r & Hri & Hr).
  destruct (entryOf_kept e asg lt r Hlt Htpl Hr) as (f & n' & ->).
  destruct (entryOf_Some e asg f n' Hr) as [Hn' Hf].
  assert (n' = n) as -> by congruence.
  apply freeIPsOf_Ok in Hf as (score & Hscore & ->).
  exists score. split; [done|]. intros Hrange.
  rewrite (wrap_int_small score Hrange) in *.
  split.
  - rewrite tier_foldl_addEntry. apply elem_of_app. right.
    apply elem_of_namesAt. apply list_elem_of_lookup. by exists i.
  - intros k Hk. rewrite tier_foldl_addEntry in Hk.
    apply elem_of_app in Hk as [Hk|Hk].
    { unfold tier in Hk. rewrite lookup_empty in Hk. by apply elem_of_nil in Hk. }
    apply elem_of_namesAt, list_elem_of_lookup in Hk as [j Hj].
    destruct (Forall2_lookup_r _ _ _ _ _ Hes Hj) as (asg' & Hj' & Hr').
    apply entryOf_Some in Hr' as [Hn'' _].
    assert (i = j) as <-.
    { eapply (NoDup_lookup _ i j (Some n) Hnd').
      - by rewrite list_lookup_fmap, Hi; simpl; rewrite Hn.
      - by rewrite list_lookup_fmap, Hj'; simpl; rewrite Hn''. }
    congruence.
Qed.

End Tiering.

(** Decidable facts about concrete inputs are settled by evaluation. *)
Ltac by_evaluation := apply (bool_decide_unpack _); vm_compute; exact I.

Lemma kept_group_in_exactly_its_score_tier_witness :
  let e := Sample.abcEnv in
  let asg := Sample.group "B" "lt-b" "S2,S3" in
  computePriorities e (initWorld (∅ : gmap (string * string) ConfigMap))
    = (Ok {[ 5 := ["A"]; 8 := ["B"]; 10 := ["C"] ]}, initWorld ∅) ∧
  asg ∈ concat (asgPages (autoscalingClient e)) ∧
  spec_CapacityScore (ec2Client e) asg = Some 8 ∧
  "B" ∈ tier {[ 5 := ["A"]; 8 := ["B"]; 10 := ["C"] ]} 8 ∧
  ∀ k, "B" ∈ tier {[ 5 := ["A"]; 8 := ["B"]; 10 := ["C"] ]} k → k = 8.
Proof.
  intros e asg.
  assert (computePriorities e (initWorld (∅ : gmap (string * string) ConfigMap))
          = (Ok {[ 5 := ["A"]; 8 := ["B"]; 10 := ["C"] ]}, initWorld ∅)) as Hrun
    by (vm_compute; reflexivity).
  assert (asg ∈ concat (asgPages (autoscalingClient e))) as Hin by by_evaluation.
  split; [exact Hrun|]. split; [exact Hin|].
  destruct (kept_group_in_exactly_its_score_tier e _ _ _ asg "B" "lt-b" Hrun)
    as (score & Hscore & Htier).
  - by_evaluation.
  - exact Hin.
  - reflexivity.
  - reflexivity.
  - reflexivity.
  - reflexivity.
  - assert (score = 8) as -> by (vm_compute in Hscore; congruence).
    split; [reflexivity|]. apply Htier. unfold int_min, int_max, int_bits. lia.
Defined.

(** The score of the witness is 8, the sum of 5 and 3. *)
Example score_of_B :
  spec_CapacityScore Sample.abcEC2 (Sample.group "B" "lt-b" "S2,S3") = Some 8.
Proof. reflexivity. Qed.

(** ** Saving the listing *)

Section Reconcile.
Context {S : Type} `{!ConfigMapInterface S}.
Implicit Types (w : World S) (e : Env) (m : gmap Z (list string)).

(** The lookup fails and [skipCMCreation] is set: one read, one line. *)
Lemma publish_absent_skip e m w err (s1 : S) :
  BuildConfigFromFlags e = None → NewForConfig e = None →
  Get (caNamespace (vars e)) caPriorityExpander (store w) = (Error err, s1) →
  skipCMCreation (vars e) = true →
  publish e m w =
    (Ok tt, {| stdout := (stdout w ++ debugListing e m) ++ [msgSkipping e];
               calls := calls w ++ [CallGet (caNamespace (vars e)) caPriorityExpander];
               store := s1 |}).
Proof.
  intros Hb Hn Hget Hskip.
  unfold publish, saveConfig, debugListing, msgSkipping, bind, callGet, when, Println, print, ret.
  rewrite Hb, Hn, Hget. simpl. rewrite Hskip.
  destruct (debug (vars e)); simpl; [done|]. by rewrite app_nil_r.
Qed.

(** The lookup fails and [skipCMCreation] is not set: a read, then the
    request to create the ConfigMap with the payload. *)
Lemma publish_absent_create e m w err (s1 : S) :
  BuildConfigFromFlags e = None → NewForConfig e = None →
  Get (caNamespace (vars e)) caPriorityExpander (store w) = (Error err, s1) →
  skipCMCreation (vars e) = false →
  (publish e m w).1 = Ok tt ∧
  calls (publish e m w).2 =
    calls w ++ [CallGet (caNamespace (vars e)) caPriorityExpander;
                CallCreate (caNamespace (vars e))
                  (newConfigMap caPriorityExpander (payload e m))] ∧
  store (publish e m w).2 =
    (Create (caNamespace (vars e))
       (newConfigMap caPriorityExpander (payload e m)) s1).2.
Proof.
  intros Hb Hn Hget Hskip.
  unfold publish, saveConfig, bind, callGet, callCreate, when, Println, print, ret.
  rewrite Hb, Hn, Hget. simpl. rewrite Hskip.
  destruct (debug (vars e)); simpl; cbn [store];
    destruct (Create _ _ s1) as [[cm|err'] s']; simpl;
    by rewrite <- app_assoc.
Qed.

(** Both lookups succeed: the request to update with the ConfigMap of the
    second lookup, its data replaced by the payload. *)
Lemma publish_found e m w first (s1 : S) cm (s2 : S) :
  BuildConfigFromFlags e = None → NewForConfig e = None →
  Get (caNamespace (vars e)) caPriorityExpander (store w) = (Value first, s1) →
  Get (caNamespace (vars e)) caPriorityExpander s1 = (Value cm, s2) →
  (publish e m w).1 = Ok tt ∧
  calls (publish e m w).2 =
    calls w ++ [CallGet (caNamespace (vars e)) caPriorityExpander;
                CallGet (caNamespace (vars e)) caPriorityExpander;
                CallUpdate (caNamespace (vars e)) (setData cm (payload e m))] ∧
  store (publish e m w).2 =
    (Update (caNamespace (vars e)) (setData cm (payload e m)) s2).2.
Proof.
  intros Hb Hn Hget1 Hget2.
  unfold publish, saveConfig, bind, callGet, callUpdate, when, Println, print, ret.
  rewrite Hb, Hn, Hget1. simpl.
  destruct (debug (vars e)); simpl; rewrite Hget2; simpl; cbn [store];
    destruct (Update _ _ s2) as [[cm'|err'] s']; simpl;
    by rewrite <- !app_assoc.
Qed.

(** The first lookup succeeds and the second fails: the error is printed
    and the cycle is over, without a write. *)
Lemma publish_lost e m w first (s1 : S) err (s2 : S) :
  BuildConfigFromFlags e = None → NewForConfig e = None →
  Get (caNamespace (vars e)) caPriorityExpander (store w) = (Value first, s1) →
  Get (caNamespace (vars e)) caPriorityExpander s1 = (Error err, s2) →
  publish e m w =
    (Ok tt, {| stdout := (stdout w ++ debugListing e m)
                         ++ ["Error retrieving configmap: " +:+ err +:+ nl];
               calls := calls w ++ [CallGet (caNamespace (vars e)) caPriorityExpander;
                                    CallGet (caNamespace (vars e)) caPriorityExpander];
               store := s2 |}).
Proof.
  intros Hb Hn Hget1 Hget2.
  unfold publish, saveConfig, debugListing, bind, callGet, when, Println, print, ret.
  rewrite Hb, Hn, Hget1. simpl.
  destruct (debug (vars e)); simpl; rewrite Hget2; simpl;
    by rewrite <- ?app_assoc, ?app_nil_r.
Qed.

(** C6: with the Kubernetes client built, the second half of [mainLoop]
    (a) sends, when the lookup fails and [skipCMCreation] is off, one
    request to create the ConfigMap whose data is exactly the payload,
    (b) sends no write when the lookup fails and [skipCMCreation] is on and
    prints the line about the skipped creation, and (c) when the lookup
    finds the ConfigMap, looks it up once more and sends one request to
    update the object of that second lookup, its data being exactly the
    payload and nothing of the former data.  That second lookup can fail:
    the cycle then prints the error and sends no write. *)
Theorem reconcile_create_skip_or_replace e m w :
  BuildConfigFromFlags e = None → NewForConfig e = None →
  let ns := caNamespace (vars e) in
  let w' := (publish e m w).2 in
  match Get ns caPriorityExpander (store w) with
  | (Error _, s1) =>
      if skipCMCreation (vars e) then
        calls w' = calls w ++ [CallGet ns caPriorityExpander] ∧
        store w' = s1 ∧
        stdout w' = (stdout w ++ debugListing e m) ++ [msgSkipping e]
      else
        ∃ cm, calls w' = calls w ++ [CallGet ns caPriorityExpander; CallCreate ns cm] ∧
              Name (Meta cm) = caPriorityExpander ∧
              Data cm = payload e m ∧
              store w' = (Create ns cm s1).2
  | (Value _, s1) =>
      match Get ns caPriorityExpander s1 with
      | (Value old, s2) =>
          ∃ cm, calls w' = calls w ++ [CallGet ns caPriorityExpander;
                                       CallGet ns caPriorityExpander;
                                       CallUpdate ns cm] ∧
                cm = setData old (payload e m) ∧
                Data cm = payload e m ∧
                store w' = (Update ns cm s2).2
      | (Error err, s2) =>
          calls w' = calls w ++ [CallGet ns caPriorityExpander;
                                 CallGet ns caPriorityExpander] ∧
          store w' = s2 ∧
          stdout w' = (stdout w ++ debugListing e m)
                      ++ ["Error retrieving configmap: " +:+ err +:+ nl]
      end
  end.
Proof.
  intros Hb Hn ns w'. subst ns w'.
  destruct (Get (caNamespace (vars e)) caPriorityExpander (store w))
    as [[first|err] s1] eqn:Hget1.
  - destruct (Get (caNamespace (vars e)) caPriorityExpander s1)
      as [[old|err] s2] eqn:Hget2.
    + destruct (publish_found e m w first s1 old s2 Hb Hn Hget1 Hget2) as (_ & Hc & Hs).
      exists (setData old (payload e m)). by split; [|split; [|split]].
    + by rewrite (publish_lost e m w first s1 err s2 Hb Hn Hget1 Hget2).
  - destruct (skipCMCreation (vars e)) eqn:Hskip.
    + by rewrite (publish_absent_skip e m w err s1 Hb Hn Hget1 Hskip).
    + destruct (publish_absent_create e m w err s1 Hb Hn Hget1 Hskip) as (_ & Hc & Hs).
      exists (newConfigMap caPriorityExpander (payload e m)). by split; [|split; [|split]].
Qed.

(** C10: on the update path the object sent back is the one fetched by
    the lookup of line 184, the second of the cycle, with only its data
    replaced: type, metadata (name, namespace, labels, annotations,
    resource version and the rest), immutability flag and binary data are
    those of that fetched object, also when the first lookup had returned
    another one. *)
Theorem update_changes_only_data e m w first (s1 : S) old (s2 : S) :
  BuildConfigFromFlags e = None → NewForConfig e = None →
  Get (caNamespace (vars e)) caPriorityExpander (store w) = (Value first, s1) →
  Get (caNamespace (vars e)) caPriorityExpander s1 = (Value old, s2) →
  ∃ cm,
    calls (publish e m w).2 =
      calls w ++ [CallGet (caNamespace (vars e)) caPriorityExpander;
                  CallGet (caNamespace (vars e)) caPriorityExpander;
                  CallUpdate (caNamespace (vars e)) cm] ∧
    Kind cm = Kind old ∧ APIVersion cm = APIVersion old ∧
    Meta cm = Meta old ∧ Immutable cm = Immutable old ∧
    BinaryData cm = BinaryData old ∧
    Data cm = payload e m.
Proof.
  intros Hb Hn Hget1 Hget2.
  destruct (publish_found e m w first s1 old s2 Hb Hn Hget1 Hget2) as (_ & Hc & _).
  exists (setData old (payload e m)). split; [exact Hc|]. by repeat split.
Qed.

End Reconcile.

Lemma reconcile_create_skip_or_replace_witness :
  BuildConfigFromFlags Sample.abcEnv = None ∧
  NewForConfig Sample.abcEnv = None ∧
  ∃ cm,
    calls (publish Sample.abcEnv Runs.tiersABC Runs.emptyStore).2 =
      [CallGet "kube-system" caPriorityExpander; CallCreate "kube-system" cm] ∧
    Name (Meta cm) = caPriorityExpander ∧
    Data cm = payload Sample.abcEnv Runs.tiersABC ∧
    store (publish Sample.abcEnv Runs.tiersABC Runs.emptyStore).2 =
      (Create "kube-system" cm ∅).2.
Proof.
  split; [reflexivity|]. split; [reflexivity|].
  exact (reconcile_create_skip_or_replace Sample.abcEnv Runs.tiersABC Runs.emptyStore
           eq_refl eq_refl).
Defined.

(** With [skipCMCreation] set and no ConfigMap in the store, the run reads
    once, writes nothing and says so. *)
Example skip_creation_run :
  mainLoop Runs.skipEnv Runs.emptyStore =
  (Ok tt,
   {| stdout := ["Skipping creation of configmap: kube-system/cluster-autoscaler-priority-expander" +:+ nl];
      calls := [CallGet "kube-system" caPriorityExpander];
      store := ∅ |}).
Proof. vm_compute. reflexivity. Qed.

(** With a ConfigMap in the store, the run replaces its data: the key
    ["other"] of the former data is gone, the metadata is kept. *)
Example update_run :
  let w' := (mainLoop Sample.abcEnv Runs.withExisting).2 in
  storeGet "kube-system" caPriorityExpander (store w') =
    Value (setData Sample.existing (payload Sample.abcEnv Runs.tiersABC)) ∧
  filter (λ c, isWrite c) (calls w') =
    [CallUpdate "kube-system" (setData Sample.existing (payload Sample.abcEnv Runs.tiersABC))].
Proof. vm_compute. split; reflexivity. Qed.

(** When the second lookup of the cycle fails, the run reports it and
    sends no update. *)
Example second_lookup_fails_run :
  mainLoop Sample.abcEnv Runs.answersOnce =
  (Ok tt,
   {| stdout := ["Error retrieving configmap: connection refused" +:+ nl];
      calls := [CallGet "kube-system" caPriorityExpander;
                CallGet "kube-system" caPriorityExpander];
      store := [] |}).
Proof. vm_compute. reflexivity. Qed.

(** The reconciliation on the store in which both lookups find the
    ConfigMap. *)
Example reconcile_found_run :
  ∃ cm,
    calls (publish Sample.abcEnv Runs.tiersABC Runs.withExisting).2 =
      [CallGet "kube-system" caPriorityExpander;
       CallGet "kube-system" caPriorityExpander;
       CallUpdate "kube-system" cm] ∧
    cm = setData Sample.existing (payload Sample.abcEnv Runs.tiersABC) ∧
    Data cm = payload Sample.abcEnv Runs.tiersABC ∧
    store (publish Sample.abcEnv Runs.tiersABC Runs.withExisting).2 =
      (Update "kube-system" cm (Sample.storeWith Sample.existing)).2.
Proof.
  destruct (publish_found Sample.abcEnv Runs.tiersABC Runs.withExisting
              Sample.existing (Sample.storeWith Sample.existing)
              Sample.existing (Sample.storeWith Sample.existing))
    as (_ & Hc & Hs); try reflexivity.
  eexists. split; [exact Hc|]. by split; [|split].
Qed.

(** The ConfigMap is found by the first lookup and yet no update is sent,
    since the second lookup fails. *)
Lemma found_but_not_written_back :
  ¬ writesBackWhenFound Sample.abcEnv Runs.tiersABC Runs.answersOnce.
Proof.
  intros Hwrites.
  destruct (Hwrites Sample.existing [] eq_refl) as (cm & Hsent & _).
  rewrite (publish_lost Sample.abcEnv Runs.tiersABC Runs.answersOnce
             Sample.existing [] "connection refused" []) in Hsent by reflexivity.
  cbn [calls Runs.answersOnce initWorld app] in Hsent.
  apply elem_of_cons in Hsent as [Hsent|Hsent]; [discriminate Hsent|].
  apply elem_of_cons in Hsent as [Hsent|Hsent]; [discriminate Hsent|].
  by apply elem_of_nil in Hsent.
Qed.

Lemma update_changes_only_data_witness :
  ∃ cm,
    calls (publish Sample.abcEnv Runs.tiersABC Runs.answersTwice).2 =
      [CallGet "kube-system" caPriorityExpander;
       CallGet "kube-system" caPriorityExpander;
       CallUpdate "kube-system" cm] ∧
    Kind cm = "ConfigMap" ∧ APIVersion cm = "v1" ∧
    Meta cm = Meta Runs.newer ∧ Immutable cm = None ∧
    BinaryData cm = ∅ ∧
    Data cm = payload Sample.abcEnv Runs.tiersABC.
Proof.
  exact (update_changes_only_data Sample.abcEnv Runs.tiersABC Runs.answersTwice
           Sample.existing [Value Runs.newer] Runs.newer []
           eq_refl eq_refl eq_refl eq_refl).
Defined.

(** ** The same inputs give the same listing *)

Section Determinism.
Context {S : Type} `{!ConfigMapInterface S}.
Implicit Types (w : World S) (e : Env) (m : gmap Z (list string)).

Lemma considerASG_ext e1 e2 :
  vars e1 = vars e2 → ec2Client e1 = ec2Client e2 →
  considerASG (S := S) e1 = considerASG e2.
Proof. intros Hv Hc. unfold considerASG. by rewrite Hv, Hc. Qed.

Lemma computePriorities_ext e1 e2 :
  vars e1 = vars e2 → autoscalingClient e1 = autoscalingClient e2 →
  ec2Client e1 = ec2Client e2 →
  computePriorities (S := S) e1 = computePriorities e2.
Proof.
  intros Hv Ha Hc. unfold computePriorities, awsSearchEC2ASGByName.
  by rewrite (considerASG_ext e1 e2 Hv Hc), Hv, Ha.
Qed.

Lemma publish_ext e1 e2 m :
  vars e1 = vars e2 →
  BuildConfigFromFlags e1 = BuildConfigFromFlags e2 →
  NewForConfig e1 = NewForConfig e2 →
  renderPriorities e1 m = renderPriorities e2 m →
  publish (S := S) e1 m = publish e2 m.
Proof.
  intros Hv Hb Hn Hr. unfold publish, payload, saveConfig.
  by rewrite Hv, Hb, Hn, Hr.
Qed.

(** The names of a tier are those of its entries, in the order in which
    the listing returned their groups. *)
Lemma tiers_in_listing_order e w m w' :
  computePriorities e w = (Ok m, w') →
  ∃ es,
    Forall2 (λ asg r, entryOf e asg = Ok r)
      (filter (λ g, nameContains (asgContains (vars e)) g)
              (concat (asgPages (autoscalingClient e)))) es ∧
    ∀ k, tier m k = namesAt k es.
Proof.
  intros Hrun. apply computePriorities_Ok in Hrun as (es & Hes & ->).
  exists es. split; [exact Hes|]. intros k.
  rewrite tier_foldl_addEntry. unfold tier. by rewrite lookup_empty.
Qed.

(** C9: two runs that read the same variables, the same groups in the
    same order and the same subnet data behave alike whatever order
    [range] takes over the keys of the map: same result, same output,
    same requests with the same payload, same store.  The listing has
    its tiers in strictly decreasing order of score, and the names of a
    tier in the order in which the listing returned their groups. *)
Theorem rendering_deterministic e1 e2 w :
  vars e1 = vars e2 →
  autoscalingClient e1 = autoscalingClient e2 →
  ec2Client e1 = ec2Client e2 →
  BuildConfigFromFlags e1 = BuildConfigFromFlags e2 →
  NewForConfig e1 = NewForConfig e2 →
  rangeOk e1 → rangeOk e2 →
  mainLoop e1 w = mainLoop e2 w ∧
  ∀ m w', computePriorities e1 w = (Ok m, w') →
    computePriorities e2 w = (Ok m, w') ∧
    renderPriorities e1 m = renderPriorities e2 m ∧
    ∃ keys es,
      descending keys ∧
      Forall2 (λ asg r, entryOf e1 asg = Ok r)
        (filter (λ g, nameContains (asgContains (vars e1)) g)
                (concat (asgPages (autoscalingClient e1)))) es ∧
      renderPriorities e1 m =
        spec_listing (map (λ k, (k, namesAt k es)) keys
                      ++ (if catchAll (vars e1) then [catchAllTier] else [])).
Proof.
  intros Hv Ha Hc Hb Hn Hr1 Hr2.
  assert (∀ m, renderPriorities e1 m = renderPriorities e2 m) as Hrender.
  { intros m. apply renderPriorities_order; [done|done|by rewrite Hv]. }
  split.
  - unfold mainLoop, bind. rewrite (computePriorities_ext e1 e2 Hv Ha Hc).
    destruct (computePriorities e2 w) as [[m|msg] w1]; [|done].
    by rewrite (publish_ext e1 e2 m Hv Hb Hn (Hrender m)).
  - intros m w' Hrun. split; [by rewrite <- (computePriorities_ext e1 e2 Hv Ha Hc)|].
    split; [apply Hrender|].
    destruct (tiers_in_listing_order e1 w m w' Hrun) as (es & Hes & Htier).
    exists (sortReverse (rangeKeys e1 m)), es.
    destruct (sorted_keys_spec e1 m Hr1) as (Hd & _ & _).
    split; [exact Hd|]. split; [exact Hes|].
    rewrite renderPriorities_listing. f_equal. f_equal.
    apply map_ext. intros k. by rewrite Htier.
Qed.

End Determinism.

Lemma rangeOk_asStored : rangeOk Sample.abcEnv.
Proof. intros m. reflexivity. Qed.

Lemma rangeOk_reversed : rangeOk (Orders.abcEnvWith Sample.rangeReversed).
Proof. intros m. apply reverse_Permutation. Qed.

Lemma rendering_deterministic_witness :
  rangeOk Sample.abcEnv ∧ rangeOk (Orders.abcEnvWith Sample.rangeReversed) ∧
  mainLoop Sample.abcEnv Runs.emptyStore
    = mainLoop (Orders.abcEnvWith Sample.rangeReversed) Runs.emptyStore ∧
  ∀ m w', computePriorities Sample.abcEnv Runs.emptyStore = (Ok m, w') →
    computePriorities (Orders.abcEnvWith Sample.rangeReversed) Runs.emptyStore = (Ok m, w') ∧
    renderPriorities Sample.abcEnv m
      = renderPriorities (Orders.abcEnvWith Sample.rangeReversed) m ∧
    ∃ keys es,
      descending keys ∧
      Forall2 (λ asg r, entryOf Sample.abcEnv asg = Ok r)
        (filter (λ g, nameContains "" g) (concat [Sample.abc])) es ∧
      renderPriorities Sample.abcEnv m =
        spec_listing (map (λ k, (k, namesAt k es)) keys ++ [catchAllTier]).
Proof.
  split; [exact rangeOk_asStored|].
  split; [exact rangeOk_reversed|].
  exact (rendering_deterministic Sample.abcEnv (Orders.abcEnvWith Sample.rangeReversed)
           Runs.emptyStore eq_refl eq_refl eq_refl eq_refl eq_refl
           rangeOk_asStored rangeOk_reversed).
Defined.

(** Two groups with the same score share a tier in the order of the
    listing, not in the order of their names. *)
Example tier_in_listing_order :
  renderPriorities
    (Sample.envOf (Sample.varsOf "" "" false false)
       [[Sample.group "zeta" "lt" "S1"]; [Sample.group "alpha" "lt" "S2"]] None Sample.abcEC2)
    {[ 5 := ["zeta"; "alpha"] ]}
  = "5:" +:+ nl +:+ "  - zeta" +:+ nl +:+ "  - alpha" +:+ nl
  ∧ (computePriorities
       (Sample.envOf (Sample.varsOf "" "" false false)
          [[Sample.group "zeta" "lt" "S1"]; [Sample.group "alpha" "lt" "S2"]] None Sample.abcEC2)
       Runs.emptyStore).1 = Ok {[ 5 := ["zeta"; "alpha"] ]}.
Proof. vm_compute. split; reflexivity. Qed.

(** ** Faults *)

Lemma ltNameOf_neither (asg : Group) :
  Group_LaunchTemplate asg = None → Group_MixedInstancesPolicy asg = None →
  ltNameOf asg = Panic nil_deref.
Proof. unfold ltNameOf. by intros -> ->. Qed.

Lemma entryOf_ltName_Panic (e : Env) (asg : Group) (msg : string) :
  ltNameOf asg = Panic msg → entryOf e asg = Panic msg.
Proof. unfold entryOf. by intros ->. Qed.

Lemma freeIPsOf_needs_counts (ec2 : EC2) (asg : Group) (zone id : string) (f : Z) :
  VPCZoneIdentifier asg = Some zone → id ∈ Split zone ","%char →
  freeIPsOf ec2 asg = Ok f → is_Some (availableCount ec2 id).
Proof.
  intros Hz Hid. rewrite freeIPsOf_unfold, Hz. simpl. intros Hloop.
  apply forEach_addSubnet_Ok in Hloop as (counts & Hcounts & _).
  apply mapM_Some_1 in Hcounts.
  apply list_elem_of_lookup in Hid as [i Hi].
  destruct (Forall2_lookup_l _ _ _ _ _ Hcounts Hi) as (c & _ & Hc). by exists c.
Qed.

Lemma entryOf_count_Panic (e : Env) (asg : Group) (lt zone id : string) :
  ltNameOf asg = Ok lt → Contains lt (ltContains (vars e)) = true →
  VPCZoneIdentifier asg = Some zone → id ∈ Split zone ","%char →
  availableCount (ec2Client e) id = None →
  ∃ msg, entryOf e asg = Panic msg.
Proof.
  intros Hlt Hc Hz Hid Hnone.
  destruct (entryOf e asg) as [r|msg] eqn:Hr; [|by exists msg].
  destruct (entryOf_kept e asg lt r Hlt Hc Hr) as (f & n & ->).
  apply entryOf_Some in Hr as [_ Hf].
  destruct (freeIPsOf_needs_counts _ _ _ _ _ Hz Hid Hf) as [c Hcount]. congruence.
Qed.

(** A lookup that came back with an error and without subnets yields no
    count. *)
Lemma failed_lookup_no_count (ec2 : EC2) (id : string) :
  match (DescribeSubnets ec2 id).1 with
  | Some out => Subnets out = []
  | None => True
  end →
  availableCount ec2 id = None.
Proof.
  unfold availableCount. destruct (DescribeSubnets ec2 id).1 as [out|]; simpl; [|done].
  by intros ->.
Qed.

Section Faults.
Context {S : Type} `{!ConfigMapInterface S}.
Implicit Types (w : World S) (e : Env).

Lemma selected_fault_ends_mainLoop e w asg n :
  asg ∈ concat (asgPages (autoscalingClient e)) →
  AutoScalingGroupName asg = Some n →
  Contains n (asgContains (vars e)) = true →
  (∃ msg, entryOf e asg = Panic msg) →
  ∃ msg, (mainLoop e w).1 = Panic msg ∧
         calls (mainLoop e w).2 = calls w ∧ store (mainLoop e w).2 = store w.
Proof.
  intros Hin Hn Hc Hfault.
  destruct (computePriorities_Panic e w) as [msg Hmsg].
  { apply Exists_exists. exists asg. split; [|exact Hfault].
    apply list_elem_of_filter. split; [|done]. unfold nameContains. by rewrite Hn, Hc. }
  exists msg. by apply mainLoop_Panic.
Qed.

(** C3, as the program behaves: a listed group with neither a launch
    template nor a mixed-instances policy makes the run end in a fault
    (a nil dereference); the group is not skipped, the remaining groups
    are not evaluated and nothing is written. *)
Theorem missing_template_reference_faults e w asg n :
  asg ∈ concat (asgPages (autoscalingClient e)) →
  AutoScalingGroupName asg = Some n →
  Contains n (asgContains (vars e)) = true →
  Group_LaunchTemplate asg = None →
  Group_MixedInstancesPolicy asg = None →
  ltNameOf asg = Panic nil_deref ∧
  ∃ msg, (mainLoop e w).1 = Panic msg ∧
         calls (mainLoop e w).2 = calls w ∧ store (mainLoop e w).2 = store w.
Proof.
  intros Hin Hn Hc Hlt Hmip.
  pose proof (ltNameOf_neither asg Hlt Hmip) as Hp. split; [exact Hp|].
  apply (selected_fault_ends_mainLoop e w asg n Hin Hn Hc).
  exists nil_deref. by apply entryOf_ltName_Panic.
Qed.

(** C4, as the program behaves: when the lookup of one subnet of a kept
    group returns an error and no subnet, the error is dropped and the
    run ends in a fault; the group is not set aside on its own, nothing
    is written. *)
Theorem failed_subnet_lookup_faults e w asg n lt zone id err :
  asg ∈ concat (asgPages (autoscalingClient e)) →
  AutoScalingGroupName asg = Some n →
  Contains n (asgContains (vars e)) = true →
  ltNameOf asg = Ok lt →
  Contains lt (ltContains (vars e)) = true →
  VPCZoneIdentifier asg = Some zone →
  id ∈ Split zone ","%char →
  (DescribeSubnets (ec2Client e) id).2 = Some err →
  match (DescribeSubnets (ec2Client e) id).1 with
  | Some out => Subnets out = []
  | None => True
  end →
  ∃ msg, (mainLoop e w).1 = Panic msg ∧
         calls (mainLoop e w).2 = calls w ∧ store (mainLoop e w).2 = store w.
Proof.
  intros Hin Hn Hc Hlt Htpl Hz Hid _ Hout.
  apply (selected_fault_ends_mainLoop e w asg n Hin Hn Hc).
  apply (entryOf_count_Panic e asg lt zone id Hlt Htpl Hz Hid).
  by apply failed_lookup_no_count.
Qed.

(** C7, as the program behaves: for a kept group whose subnet field is
    empty the loop does not add up nothing; it looks the empty id up,
    and when that lookup yields no subnet the run ends in a fault. *)
Theorem no_subnets_looks_up_empty_id e w asg n lt :
  asg ∈ concat (asgPages (autoscalingClient e)) →
  AutoScalingGroupName asg = Some n →
  Contains n (asgContains (vars e)) = true →
  ltNameOf asg = Ok lt →
  Contains lt (ltContains (vars e)) = true →
  VPCZoneIdentifier asg = Some "" →
  freeIPsOf (ec2Client e) asg = addSubnet (ec2Client e) "" 0 ∧
  (availableCount (ec2Client e) "" = None →
   ∃ msg, (mainLoop e w).1 = Panic msg ∧
          calls (mainLoop e w).2 = calls w ∧ store (mainLoop e w).2 = store w).
Proof.
  intros Hin Hn Hc Hlt Htpl Hz. split.
  - rewrite freeIPsOf_unfold, Hz.
    change (ResM.bind (addSubnet (ec2Client e) "" 0) Ok = addSubnet (ec2Client e) "" 0).
    by destruct (addSubnet (ec2Client e) "" 0).
  - intros Hnone.
    apply (selected_fault_ends_mainLoop e w asg n Hin Hn Hc).
    apply (entryOf_count_Panic e asg lt "" "" Hlt Htpl Hz); [|exact Hnone].
    rewrite Split_empty. apply list_elem_of_singleton. reflexivity.
Qed.

End Faults.

Lemma missing_template_reference_faults_witness :
  ltNameOf (Sample.bareGroup "broken" "S1") = Panic nil_deref ∧
  ∃ msg, (mainLoop Failing.bareEnv Runs.withExisting).1 = Panic msg ∧
         calls (mainLoop Failing.bareEnv Runs.withExisting).2 = [] ∧
         store (mainLoop Failing.bareEnv Runs.withExisting).2 = Sample.storeWith Sample.existing.
Proof.
  apply (missing_template_reference_faults Failing.bareEnv Runs.withExisting
           (Sample.bareGroup "broken" "S1") "broken").
  - by_evaluation.
  - reflexivity.
  - reflexivity.
  - reflexivity.
  - reflexivity.
Defined.

(** The run on the listing with the group without template reference. *)
Example missing_template_reference_run :
  (mainLoop Failing.bareEnv Runs.withExisting).1 = Panic nil_deref ∧
  calls (mainLoop Failing.bareEnv Runs.withExisting).2 = [] ∧
  stdout (mainLoop Failing.bareEnv Runs.withExisting).2 = [].
Proof. vm_compute. by repeat split. Qed.

Lemma failed_subnet_lookup_faults_witness :
  DescribeSubnets Sample.abcEC2 "S9"
    = (Some {| Subnets := [] |}, Some "InvalidSubnetID.NotFound") ∧
  ∃ msg, (mainLoop Failing.lostSubnetEnv Runs.withExisting).1 = Panic msg ∧
         calls (mainLoop Failing.lostSubnetEnv Runs.withExisting).2 = [] ∧
         store (mainLoop Failing.lostSubnetEnv Runs.withExisting).2
           = Sample.storeWith Sample.existing.
Proof.
  split; [reflexivity|].
  apply (failed_subnet_lookup_faults Failing.lostSubnetEnv Runs.withExisting
           (Sample.group "B" "lt-b" "S2,S9") "B" "lt-b" "S2,S9" "S9"
           "InvalidSubnetID.NotFound").
  - by_evaluation.
  - reflexivity.
  - reflexivity.
  - reflexivity.
  - reflexivity.
  - reflexivity.
  - by_evaluation.
  - reflexivity.
  - reflexivity.
Defined.

(** The run on the listing with the unknown subnet. *)
Example failed_subnet_lookup_run :
  (mainLoop Failing.lostSubnetEnv Runs.withExisting).1 = Panic index_out_of_range ∧
  calls (mainLoop Failing.lostSubnetEnv Runs.withExisting).2 = [] ∧
  stdout (mainLoop Failing.lostSubnetEnv Runs.withExisting).2 = [].
Proof. vm_compute. by repeat split. Qed.

Lemma no_subnets_looks_up_empty_id_witness :
  freeIPsOf Sample.abcEC2 (Sample.group "empty" "lt-e" "")
    = addSubnet Sample.abcEC2 "" 0 ∧
  ∃ msg, (mainLoop Failing.noSubnetEnv Runs.withExisting).1 = Panic msg ∧
         calls (mainLoop Failing.noSubnetEnv Runs.withExisting).2 = [] ∧
         store (mainLoop Failing.noSubnetEnv Runs.withExisting).2
           = Sample.storeWith Sample.existing.
Proof.
  destruct (no_subnets_looks_up_empty_id Failing.noSubnetEnv Runs.withExisting
              (Sample.group "empty" "lt-e" "") "empty" "lt-e") as [Hsum Hfault].
  - by_evaluation.
  - reflexivity.
  - reflexivity.
  - reflexivity.
  - reflexivity.
  - reflexivity.
  - split; [exact Hsum|]. apply Hfault. reflexivity.
Defined.

(** The run on the listing with the group without subnets: no tier [0:]
    is written, the run faults. *)
Example no_subnets_run :
  freeIPsOf Sample.abcEC2 (Sample.group "empty" "lt-e" "") = Panic index_out_of_range ∧
  (mainLoop Failing.noSubnetEnv Runs.withExisting).1 = Panic index_out_of_range ∧
  calls (mainLoop Failing.noSubnetEnv Runs.withExisting).2 = [] ∧
  stdout (mainLoop Failing.noSubnetEnv Runs.withExisting).2 = [].
Proof. vm_compute. by repeat split. Qed.

(** ** The example of the specification *)

Section Example.
Import Sample.

(** C8: for the groups A (one subnet, 5 free addresses), B (two
    subnets, 5 and 3) and C (one subnet, 10), with both filters empty and
    the catch-all on, the scores are 5, 8 and 10, the tiers are those of
    these scores, and the text stored under ["priorities"] is the four
    blocks 10/C, 8/B, 5/A, 1/.* whatever order [range] takes. *)
Theorem example_A_B_C (rk : gmap Z (list string) → list Z) :
  (∀ m, rk m ≡ₚ (map_to_list m).*1) →
  freeIPsOf abcEC2 (group "A" "lt-a" "S1") = Ok 5 ∧
  freeIPsOf abcEC2 (group "B" "lt-b" "S2,S3") = Ok 8 ∧
  freeIPsOf abcEC2 (group "C" "lt-c" "S4") = Ok 10 ∧
  computePriorities (Orders.abcEnvWith rk) Runs.emptyStore
    = (Ok {[ 5 := ["A"]; 8 := ["B"]; 10 := ["C"] ]}, Runs.emptyStore) ∧
  renderPriorities (Orders.abcEnvWith rk) {[ 5 := ["A"]; 8 := ["B"]; 10 := ["C"] ]}
    = abcListing ∧
  calls (mainLoop (Orders.abcEnvWith rk) Runs.emptyStore).2
    = [CallGet "kube-system" caPriorityExpander;
       CallCreate "kube-system"
         (newConfigMap caPriorityExpander {[ "priorities" := abcListing ]})].
Proof.
  intros Hrk.
  assert (computePriorities (Orders.abcEnvWith rk) Runs.emptyStore
          = (Ok {[ 5 := ["A"]; 8 := ["B"]; 10 := ["C"] ]}, Runs.emptyStore)) as Hrun
    by (vm_compute; reflexivity).
  assert (renderPriorities (Orders.abcEnvWith rk) {[ 5 := ["A"]; 8 := ["B"]; 10 := ["C"] ]}
          = abcListing) as Hrender.
  { rewrite (renderPriorities_order (Orders.abcEnvWith rk) abcEnv);
      [by vm_compute|exact Hrk|exact rangeOk_asStored|reflexivity]. }
  split; [by vm_compute|]. split; [by vm_compute|]. split; [by vm_compute|].
  split; [exact Hrun|]. split; [exact Hrender|].
  unfold mainLoop, bind. rewrite Hrun.
  assert (Get (caNamespace (vars (Orders.abcEnvWith rk))) caPriorityExpander
            (store Runs.emptyStore)
          = (Error ("configmaps " +:+ caPriorityExpander +:+ " not found"), ∅)) as Hget
    by (vm_compute; reflexivity).
  destruct (publish_absent_create (Orders.abcEnvWith rk)
              {[ 5 := ["A"]; 8 := ["B"]; 10 := ["C"] ]} Runs.emptyStore _ _
              eq_refl eq_refl Hget eq_refl) as (_ & Hcalls & _).
  rewrite Hcalls. unfold payload. by rewrite Hrender.
Qed.

End Example.

Lemma example_A_B_C_witness :
  freeIPsOf Sample.abcEC2 (Sample.group "A" "lt-a" "S1") = Ok 5 ∧
  freeIPsOf Sample.abcEC2 (Sample.group "B" "lt-b" "S2,S3") = Ok 8 ∧
  freeIPsOf Sample.abcEC2 (Sample.group "C" "lt-c" "S4") = Ok 10 ∧
  computePriorities (Orders.abcEnvWith Sample.rangeReversed) Runs.emptyStore
    = (Ok {[ 5 := ["A"]; 8 := ["B"]; 10 := ["C"] ]}, Runs.emptyStore) ∧
  renderPriorities (Orders.abcEnvWith Sample.rangeReversed)
      {[ 5 := ["A"]; 8 := ["B"]; 10 := ["C"] ]}
    = abcListing ∧
  calls (mainLoop (Orders.abcEnvWith Sample.rangeReversed) Runs.emptyStore).2
    = [CallGet "kube-system" caPriorityExpander;
       CallCreate "kube-system"
         (newConfigMap caPriorityExpander {[ "priorities" := abcListing ]})].
Proof.
  apply (example_A_B_C Sample.rangeReversed). intros m. apply reverse_Permutation.
Defined.

(** ** A listing that ends with an error *)

Section ListingFailure.
Context {S : Type} `{!ConfigMapInterface S}.
Implicit Types (w : World S) (e : Env) (m : gmap Z (list string)).

Lemma logs_ret {A} (a : A) : logs (S := S) (ret a).
Proof.
  intros w. exists []. split; [by rewrite app_nil_r|].
  intros o. unfold ret, withStdout. simpl. by rewrite app_nil_r.
Qed.

Lemma logs_lift {A} (r : Res A) : logs (S := S) (lift r).
Proof.
  intros w. exists []. split; [by rewrite app_nil_r|].
  intros o. unfold lift, withStdout. simpl. by rewrite app_nil_r.
Qed.

Lemma logs_print (s : string) : logs (S := S) (print s).
Proof. intros w. exists [s]. split; [done|]. by intros o. Qed.

Lemma logs_Println (s : string) : logs (S := S) (Println s).
Proof. apply logs_print. Qed.

Lemma logs_callGet (ns name : string) : logs (S := S) (callGet ns name).
Proof.
  intros w. exists []. unfold callGet, withStdout. simpl.
  destruct (Get ns name (store w)) as [r s']. simpl.
  split; [by rewrite app_nil_r|]. intros o. by rewrite app_nil_r.
Qed.

Lemma logs_callCreate (ns : string) (cm : ConfigMap) : logs (S := S) (callCreate ns cm).
Proof.
  intros w. exists []. unfold callCreate, withStdout. simpl.
  destruct (Create ns cm (store w)) as [r s']. simpl.
  split; [by rewrite app_nil_r|]. intros o. by rewrite app_nil_r.
Qed.

Lemma logs_callUpdate (ns : string) (cm : ConfigMap) : logs (S := S) (callUpdate ns cm).
Proof.
  intros w. exists []. unfold callUpdate, withStdout. simpl.
  destruct (Update ns cm (store w)) as [r s']. simpl.
  split; [by rewrite app_nil_r|]. intros o. by rewrite app_nil_r.
Qed.

Lemma logs_bind {A B} (c : M S A) (f : A → M S B) :
  logs c → (∀ a, logs (S := S) (f a)) → logs (S := S) (bind c f).
Proof.
  intros Hc Hf w. destruct (Hc w) as (out1 & Hout1 & Hrun1).
  unfold bind. destruct (c w) as [[a|msg] w1] eqn:Hcw; simpl in *.
  - destruct (Hf a w1) as (out2 & Hout2 & Hrun2).
    exists (out1 ++ out2). split.
    + by rewrite Hout2, Hout1, app_assoc.
    + intros o. rewrite Hrun1. cbv iota beta.
      rewrite (Hrun2 (o ++ out1)). by rewrite app_assoc.
  - exists out1. split; [done|]. intros o. by rewrite Hrun1.
Qed.

Lemma logs_when (b : bool) (c : M S unit) : logs c → logs (S := S) (when b c).
Proof. destruct b; [done|]. intros _. apply logs_ret. Qed.

Lemma logs_forEachM {A St} (xs : list A) (body : A → St → M S St) (st : St) :
  (∀ x st, logs (S := S) (body x st)) → logs (S := S) (forEachM xs body st).
Proof.
  intros Hb. revert st. induction xs as [|x xs IH]; intros st; simpl.
  - apply logs_ret.
  - apply logs_bind; [apply Hb|apply IH].
Qed.

Ltac logging :=
  repeat first
    [ apply logs_bind; [|intros ?]
    | apply logs_when
    | apply logs_forEachM; intros ? ?
    | apply logs_ret | apply logs_lift | apply logs_print | apply logs_Println
    | apply logs_callGet | apply logs_callCreate | apply logs_callUpdate
    | match goal with |- logs (S := S) (if ?b then _ else _) => destruct b end
    | match goal with |- logs (S := S) (match ?o with Some _ => _ | None => _ end) =>
        destruct o end
    | match goal with |- logs (S := S) (match ?r with Value _ => _ | Error _ => _ end) =>
        destruct r end ].

Lemma logs_considerASG e asg m : logs (S := S) (considerASG e asg m).
Proof. unfold considerASG. logging. Qed.

Lemma logs_saveConfig e (b : bool) (data : gmap string string) :
  logs (S := S) (saveConfig e b data).
Proof. unfold saveConfig. logging. Qed.

Lemma logs_publish e m : logs (S := S) (publish e m).
Proof.
  unfold publish.
  destruct (BuildConfigFromFlags e); [apply logs_print|].
  destruct (NewForConfig e); [apply logs_print|].
  apply logs_bind; [apply logs_callGet|intros r].
  apply logs_bind; [apply logs_when, logs_Println|intros _].
  apply logs_saveConfig.
Qed.

Lemma logs_afterListing e records : logs (S := S) (afterListing e records).
Proof.
  unfold afterListing. apply logs_bind; [|intros m; apply logs_publish].
  apply logs_forEachM. intros asg m. apply logs_considerASG.
Qed.

Lemma logs_header e : logs (S := S) (header e).
Proof. unfold header. logging. Qed.

Lemma header_Ok e w : (header e w).1 = Ok tt.
Proof.
  unfold header, when, bind, Println, print, ret.
  by destruct (debug (vars e)), (negb (String.eqb (asgContains (vars e)) "")),
    (negb (String.eqb (ltContains (vars e)) "")).
Qed.

Lemma mainLoop_steps e w :
  mainLoop e w =
  bind (header e) (λ _,
    bind (awsSearchEC2ASGByName e (asgContains (vars e))) (afterListing e)) w.
Proof.
  unfold mainLoop, computePriorities, afterListing, header, bind.
  destruct (when (debug (vars e)) _ w) as [[[]|msg] w1]; [|done].
  by destruct (awsSearchEC2ASGByName e (asgContains (vars e)) w1) as [[records|msg] w2].
Qed.

Lemma awsSearch_run e name w :
  awsSearchEC2ASGByName e name w =
  match DescribeAutoScalingGroupsPages (asgPages (autoscalingClient e))
          (asgErr (autoscalingClient e)) (pageCallback name) [] with
  | Ok records =>
      (Ok records,
       match asgErr (autoscalingClient e) with
       | Some err => withStdout (stdout w ++ [msgListingFailed err]) w
       | None => w
       end)
  | Panic msg => (Panic msg, w)
  end.
Proof.
  unfold awsSearchEC2ASGByName, bind, lift.
  destruct (DescribeAutoScalingGroupsPages _ _ _ _) as [records|msg]; [|done].
  by destruct (asgErr (autoscalingClient e)).
Qed.

Lemma afterListing_withoutErr e records :
  afterListing (withoutErr e) records = afterListing e records.
Proof.
  unfold afterListing.
  rewrite (considerASG_ext (withoutErr e) e eq_refl eq_refl).
  f_equal.
Qed.

Lemma search_then_rest e w err :
  asgErr (autoscalingClient e) = Some err →
  let pager :=
    DescribeAutoScalingGroupsPages (asgPages (autoscalingClient e)) (Some err)
      (pageCallback (asgContains (vars e))) [] in
  bind (awsSearchEC2ASGByName e (asgContains (vars e))) (afterListing e) w =
    match pager with
    | Ok records =>
        afterListing e records (withStdout (stdout w ++ [msgListingFailed err]) w)
    | Panic msg => (Panic msg, w)
    end ∧
  bind (awsSearchEC2ASGByName (withoutErr e) (asgContains (vars e)))
       (afterListing (withoutErr e)) w =
    match pager with
    | Ok records => afterListing e records w
    | Panic msg => (Panic msg, w)
    end.
Proof.
  intros Herr pager. subst pager. unfold bind. rewrite !awsSearch_run.
  change (asgErr (autoscalingClient (withoutErr e))) with (@None string).
  change (asgPages (autoscalingClient (withoutErr e)))
    with (asgPages (autoscalingClient e)).
  rewrite Herr.
  rewrite (pages_err_irrelevant _ _ None (Some err)).
  destruct (DescribeAutoScalingGroupsPages _ _ _ _) as [records|msg]; [|done].
  by rewrite afterListing_withoutErr.
Qed.

(** C5, as the program behaves: when the listing of the groups ends
    with an error, [awsSearchEC2ASGByName] prints it and hands back the
    groups of the pages received so far, and the cycle goes on with them
    as after a listing without error: same result, same requests to the
    store (the lookup and the create or update), same store at the end;
    standard output differs by the line that reports the error. *)
Theorem listing_failure_continues e w err :
  asgErr (autoscalingClient e) = Some err →
  (mainLoop e w).1 = (mainLoop (withoutErr e) w).1 ∧
  calls (mainLoop e w).2 = calls (mainLoop (withoutErr e) w).2 ∧
  store (mainLoop e w).2 = store (mainLoop (withoutErr e) w).2 ∧
  ∀ records,
    DescribeAutoScalingGroupsPages (asgPages (autoscalingClient e)) (Some err)
      (pageCallback (asgContains (vars e))) [] = Ok records →
    ∃ pre post,
      stdout (mainLoop (withoutErr e) w).2 = stdout w ++ pre ++ post ∧
      stdout (mainLoop e w).2 = stdout w ++ pre ++ [msgListingFailed err] ++ post.
Proof.
  intros Herr. rewrite !mainLoop_steps.
  change (header (S := S) (withoutErr e)) with (header (S := S) e).
  change (asgContains (vars (withoutErr e))) with (asgContains (vars e)).
  destruct (logs_header e w) as (pre & Hpre & _).
  pose proof (header_Ok e w) as Hok.
  unfold bind at 1 3 5 7 9 11 13 15.
  destruct (header e w) as [[[]|msg] w1]; simpl in Hok, Hpre; [|done].
  destruct (search_then_rest e w1 err Herr) as [-> ->].
  destruct (DescribeAutoScalingGroupsPages _ _ _ _) as [records|msg].
  - destruct (logs_afterListing e records w1) as (post & Hpost & Hrun).
    rewrite (Hrun (stdout w1 ++ [msgListingFailed err])). simpl.
    repeat split; try done.
    intros ? _. exists pre, post. rewrite Hpost, Hpre.
    by rewrite <- !app_assoc.
  - repeat split; try done.
Qed.

End ListingFailure.

(** The run whose listing failed after the first page: the ConfigMap is
    updated with the listing of that page alone. *)
Example listing_failure_run :
  let w' := (mainLoop Transport.failEnv Runs.withExisting).2 in
  (mainLoop Transport.failEnv Runs.withExisting).1 = Ok tt ∧
  stdout w' = [msgListingFailed "RequestError: send request failed";
               "Updated configmap: kube-system/cluster-autoscaler-priority-expander" +:+ nl] ∧
  calls w' = [CallGet "kube-system" caPriorityExpander;
              CallGet "kube-system" caPriorityExpander;
              CallUpdate "kube-system"
                (setData Sample.existing {[ "priorities" := Transport.partialListing ]})] ∧
  storeGet "kube-system" caPriorityExpander (store w') =
    Value (setData Sample.existing {[ "priorities" := Transport.partialListing ]}).
Proof. vm_compute. by repeat split. Qed.

Lemma listing_failure_still_writes :
  ¬ abortsOnListingFailure Transport.failEnv Runs.withExisting.
Proof.
  unfold abortsOnListingFailure. intros Habort.
  destruct Habort as [Hcalls _]; [by eexists|].
  destruct listing_failure_run as (_ & _ & Hsent & _).
  rewrite Hsent in Hcalls. vm_compute in Hcalls. discriminate Hcalls.
Qed.

Lemma listing_failure_continues_witness :
  asgErr (autoscalingClient Transport.failEnv) = Some "RequestError: send request failed" ∧
  (mainLoop Transport.failEnv Runs.withExisting).1
    = (mainLoop (withoutErr Transport.failEnv) Runs.withExisting).1 ∧
  calls (mainLoop Transport.failEnv Runs.withExisting).2
    = calls (mainLoop (withoutErr Transport.failEnv) Runs.withExisting).2 ∧
  store (mainLoop Transport.failEnv Runs.withExisting).2
    = store (mainLoop (withoutErr Transport.failEnv) Runs.withExisting).2 ∧
  ∀ records,
    DescribeAutoScalingGroupsPages (asgPages (autoscalingClient Transport.failEnv))
      (Some "RequestError: send request failed")
      (pageCallback (asgContains (vars Transport.failEnv))) [] = Ok records →
    ∃ pre post,
      stdout (mainLoop (withoutErr Transport.failEnv) Runs.withExisting).2
        = stdout Runs.withExisting ++ pre ++ post ∧
      stdout (mainLoop Transport.failEnv Runs.withExisting).2
        = stdout Runs.withExisting ++ pre
            ++ [msgListingFailed "RequestError: send request failed"] ++ post.
Proof.
  split; [reflexivity|].
  exact (listing_failure_continues Transport.failEnv Runs.withExisting
           "RequestError: send request failed" eq_refl).
Defined.

(** * Further properties of the code *)

(** ** The library functions as modelled *)

Lemma prefix_true_iff (a b : string) :
  String.prefix a b = true ↔ ∃ q, b = a +:+ q.
Proof.
  revert b. induction a as [|x a IH]; intros b.
  - split; [intros _; by exists b|by destruct b].
  - destruct b as [|y b].
    + split; [done|]. intros [q Hq]. discriminate Hq.
    + change (String.prefix (String x a) (String y b))
        with (if Ascii.ascii_dec x y then String.prefix a b else false).
      destruct (Ascii.ascii_dec x y) as [->|Hne].
      * rewrite IH. split.
        -- intros [q ->]. by exists q.
        -- intros [q Hq]. exists q.
           change (String y b = String y (a +:+ q)) in Hq. congruence.
      * split; [done|]. intros [q Hq].
        change (String y b = String x (a +:+ q)) in Hq. congruence.
Qed.

Lemma Contains_unfold (s sub : string) :
  Contains s sub =
  String.prefix sub s ||
  match s with
  | EmptyString => false
  | String _ s' => Contains s' sub
  end.
Proof. by destruct s. Qed.

(** X1: [strings.Contains] as modelled holds exactly when the second
    string occurs as a contiguous part of the first; the filters of the
    program are tests for substrings, not patterns. *)
Theorem Contains_iff_substring (s sub : string) :
  Contains s sub = true ↔ ∃ p q, s = p +:+ sub +:+ q.
Proof.
  split.
  - induction s as [|c s IH]; rewrite Contains_unfold; intros H;
      apply orb_true_iff in H as [H|H].
    + apply prefix_true_iff in H as [q ->]. by exists "", q.
    + done.
    + apply prefix_true_iff in H as [q ->]. by exists "", q.
    + destruct (IH H) as (p & q & ->). by exists (String c p), q.
  - intros (p & q & ->). induction p as [|c p IH].
    + rewrite Contains_unfold. apply orb_true_iff. left.
      apply prefix_true_iff. by exists q.
    + change (String c p +:+ sub +:+ q) with (String c (p +:+ sub +:+ q)).
      rewrite Contains_unfold. apply orb_true_iff. by right.
Qed.

Lemma rev_app_append (cur acc : string) :
  String.rev_app cur acc = String.rev cur +:+ acc.
Proof.
  unfold String.rev. revert acc. induction cur as [|c cur IH]; intros acc; [done|].
  simpl String.rev_app. rewrite (IH (String c acc)), (IH (String c "")).
  by rewrite append_assoc.
Qed.

Lemma rev_String (c : Ascii.ascii) (cur : string) :
  String.rev (String c cur) = String.rev cur +:+ String c "".
Proof. unfold String.rev at 1. simpl. apply rev_app_append. Qed.

Lemma Join_cons (x : string) (rest : list string) (sep : Ascii.ascii) :
  rest ≠ [] → Join (x :: rest) sep = x +:+ String sep (Join rest sep).
Proof. by destruct rest. Qed.

Lemma Join_SplitFrom (cur s : string) (sep : Ascii.ascii) :
  Join (SplitFrom cur s sep) sep = String.rev cur +:+ s.
Proof.
  revert cur. induction s as [|c s IH]; intros cur; simpl.
  - by rewrite append_empty_r.
  - destruct (Ascii.eqb c sep) eqn:Hc.
    + apply Ascii.eqb_eq in Hc as ->.
      rewrite Join_cons by apply SplitFrom_nonempty. by rewrite IH.
    + rewrite IH, rev_String, append_assoc. done.
Qed.

Lemma occurs_append (c : Ascii.ascii) (a b : string) :
  occurs c (a +:+ b) = occurs c a || occurs c b.
Proof.
  induction a as [|x a IH]; [done|].
  change (occurs c (String x (a +:+ b)) = occurs c (String x a) || occurs c b).
  simpl. by rewrite IH, orb_assoc.
Qed.

Lemma fields_without_separator (cur s : string) (sep : Ascii.ascii) :
  occurs sep (String.rev cur) = false →
  Forall (λ f, occurs sep f = false) (SplitFrom cur s sep).
Proof.
  revert cur. induction s as [|c s IH]; intros cur Hcur; simpl.
  - by constructor.
  - destruct (Ascii.eqb c sep) eqn:Hc.
    + constructor; [done|]. by apply IH.
    + apply IH. rewrite rev_String, occurs_append, Hcur. simpl. by rewrite Hc.
Qed.

Lemma length_SplitFrom (cur s : string) (sep : Ascii.ascii) :
  length (SplitFrom cur s sep) = Datatypes.S (countByte sep s).
Proof.
  revert cur. induction s as [|c s IH]; intros cur; simpl; [done|].
  destruct (Ascii.eqb c sep); simpl; by rewrite IH.
Qed.

(** X2: [strings.Split] as modelled: the fields joined by the separator
    give back the string, no field contains the separator, and there is
    one field more than there are separators, so never none. *)
Theorem Split_Join_round_trip (s : string) (sep : Ascii.ascii) :
  Join (Split s sep) sep = s ∧
  Forall (λ f, occurs sep f = false) (Split s sep) ∧
  length (Split s sep) = Datatypes.S (countByte sep s).
Proof.
  unfold Split. split; [|split].
  - by rewrite Join_SplitFrom.
  - by apply fields_without_separator.
  - apply length_SplitFrom.
Qed.

(** ** The variables set by [init] *)

Lemma digit_cases (d : N) :
  (d < 10)%N →
  (d = 0 ∨ d = 1 ∨ d = 2 ∨ d = 3 ∨ d = 4 ∨ d = 5 ∨ d = 6 ∨ d = 7 ∨ d = 8 ∨ d = 9)%N.
Proof. lia. Qed.

Lemma digitOf_pretty (d : N) :
  (d < 10)%N → digitOf (pretty_N_char d) = Some (Z.of_N d).
Proof.
  intros Hd. destruct (digit_cases d Hd) as [->|[->|[->|[->|[->|[->|[->|[->|[->| ->]]]]]]]]];
    reflexivity.
Qed.

Lemma pretty_digit_not_sign (d : N) :
  (d < 10)%N →
  Ascii.eqb (pretty_N_char d) "-" = false ∧ Ascii.eqb (pretty_N_char d) "+" = false.
Proof.
  intros Hd. destruct (digit_cases d Hd) as [->|[->|[->|[->|[->|[->|[->|[->|[->| ->]]]]]]]]];
    by split.
Qed.

Lemma parseUint_nonneg (s : string) (n : Z) : 0 ≤ n → 0 ≤ (parseUint n s).1.
Proof.
  revert n. induction s as [|c s IH]; intros n Hn; simpl; [done|].
  unfold digitOf. case_bool_decide as Hd; simpl; [|done].
  case_bool_decide; simpl; [lia|]. apply IH. lia.
Qed.

Lemma parseUint_pretty_go (x : N) (s : string) :
  parseUint 0 (pretty_N_go x s) =
  if bool_decide (Z.of_N x < 2 ^ 64) then parseUint (Z.of_N x) s
  else (2 ^ 64 - 1, Some ErrRange).
Proof.
  revert s. induction (N.lt_wf_0 x) as [x _ IH]; intros s.
  destruct (N.eq_0_gt_0_cases x) as [->|Hpos].
  - by rewrite pretty_N_go_0.
  - rewrite pretty_N_go_step by done.
    rewrite IH by (by apply N.div_lt).
    assert (Z.of_N x = Z.of_N (x `div` 10) * 10 + Z.of_N (x `mod` 10)) as Hx.
    { pose proof (N.div_mod x 10) as Hdm.
      rewrite Hdm at 1 by done. rewrite N2Z.inj_add, N2Z.inj_mul. simpl Z.of_N. lia. }
    assert (0 ≤ Z.of_N (x `mod` 10) < 10) as Hmod.
    { pose proof (N.mod_lt x 10 ltac:(done)) as Hlt.
      split; [apply N2Z.is_nonneg|]. by apply (N2Z.inj_lt _ 10). }
    simpl parseUint. rewrite digitOf_pretty by (by apply N.mod_lt).
    rewrite <- Hx.
    repeat case_bool_decide; try done; lia.
Qed.

Lemma pretty_N_go_head (x : N) (s : string) :
  (0 < x)%N →
  ∃ d s', (d < 10)%N ∧ pretty_N_go x s = String (pretty_N_char d) s'.
Proof.
  revert s. induction (N.lt_wf_0 x) as [x _ IH]; intros s Hpos.
  rewrite pretty_N_go_step by done.
  destruct (N.eq_0_gt_0_cases (x `div` 10)) as [->|Hdiv].
  - rewrite pretty_N_go_0. exists (x `mod` 10)%N, s. split; [|done].
    by apply N.mod_lt.
  - apply IH; [by apply N.div_lt|done].
Qed.

Lemma parseUint_pretty (p : positive) :
  parseUint 0 (pretty_N_go (N.pos p) "") =
  if bool_decide (Z.pos p < 2 ^ 64) then (Z.pos p, None)
  else (2 ^ 64 - 1, Some ErrRange).
Proof. by rewrite parseUint_pretty_go. Qed.

Lemma Atoi_pretty_pos (p : positive) :
  Atoi (pretty_N_go (N.pos p) "") =
  if bool_decide (Z.pos p ≤ int_max) then (Z.pos p, None) else (int_max, Some ErrRange).
Proof.
  destruct (pretty_N_go_head (N.pos p) "") as (d & s' & Hd & Hs); [done|].
  pose proof (parseUint_pretty p) as Hparse.
  rewrite Hs in Hparse |- *.
  destruct (pretty_digit_not_sign d Hd) as [Hminus Hplus].
  unfold Atoi. rewrite Hminus, Hplus. cbn [fst snd]. rewrite Hparse.
  unfold int_max, int_bits.
  repeat case_bool_decide; cbn [fst snd negb andb] in *; try done; try lia.
Qed.

Lemma Atoi_pretty_neg (p : positive) :
  Atoi ("-" +:+ pretty_N_go (N.pos p) "") =
  if bool_decide (int_min ≤ Z.neg p) then (Z.neg p, None) else (int_min, Some ErrRange).
Proof.
  destruct (pretty_N_go_head (N.pos p) "") as (d & s' & Hd & Hs); [done|].
  pose proof (parseUint_pretty p) as Hparse.
  rewrite Hs in Hparse |- *.
  change ("-" +:+ String (pretty_N_char d) s')
    with (String "-" (String (pretty_N_char d) s')).
  unfold Atoi. change (Ascii.eqb "-" "-") with true. cbn [fst snd]. rewrite Hparse.
  unfold int_min, int_max, int_bits.
  repeat case_bool_decide; cbn [fst snd negb andb] in *; try done; try lia.
Qed.

Lemma Atoi_fmt_d (z : Z) :
  int_min ≤ z ≤ int_max → Atoi (fmt_d z) = (z, None).
Proof.
  intros [Hmin Hmax]. destruct z as [|p|p].
  - reflexivity.
  - change (fmt_d (Z.pos p)) with (pretty_N_go (N.pos p) "").
    rewrite Atoi_pretty_pos. by rewrite bool_decide_true.
  - change (fmt_d (Z.neg p)) with ("-" +:+ pretty_N_go (N.pos p) "").
    rewrite Atoi_pretty_neg. by rewrite bool_decide_true.
Qed.

Lemma Atoi_fmt_d_clamp (z : Z) :
  (Atoi (fmt_d z)).1 = Z.max int_min (Z.min int_max z).
Proof.
  destruct z as [|p|p].
  - reflexivity.
  - change (fmt_d (Z.pos p)) with (pretty_N_go (N.pos p) "").
    rewrite Atoi_pretty_pos. unfold int_min, int_max, int_bits.
    case_bool_decide; simpl; lia.
  - change (fmt_d (Z.neg p)) with ("-" +:+ pretty_N_go (N.pos p) "").
    rewrite Atoi_pretty_neg. unfold int_min, int_max, int_bits.
    case_bool_decide; simpl; lia.
Qed.

Lemma Atoi_range (s : string) : int_min ≤ (Atoi s).1 ≤ int_max.
Proof.
  assert (int_min ≤ 0 ≤ int_max) as H0 by (unfold int_min, int_max, int_bits; lia).
  unfold Atoi.
  set (signed := match s with
                 | EmptyString => _
                 | String c rest => _
                 end).
  destruct signed.2 as [|c body]; [exact H0|].
  pose proof (parseUint_nonneg (String c body) 0) as Hnonneg.
  destruct (parseUint 0 (String c body)) as [un err]. simpl in Hnonneg.
  destruct signed.1; cbn [fst snd negb andb];
    repeat case_bool_decide; simpl; unfold int_min, int_max, int_bits in *; lia.
Qed.

(** [ParseUint] stops at the digit with which the number leaves its 64
    bits, so what follows that digit is not looked at; before that digit a
    byte that is no digit is a syntax error. *)
Example Atoi_stops_at_overflow :
  Atoi "99999999999999999999x" = (int_max, Some ErrRange) ∧
  Atoi "9300000000000000000x" = (0, Some ErrSyntax) ∧
  Atoi "9300000000000000000" = (int_max, Some ErrRange) ∧
  Atoi "-99999999999999999999x" = (int_min, Some ErrRange).
Proof. vm_compute. by repeat split. Qed.

(** X3: a value of [SLEEP_MINUTES] that is the decimal form of an
    integer of the range of [int], as [%d] prints it, is read back by [init]
    as that integer. *)
Theorem init_reads_back_sleep_minutes (Getenv : string → string) (z : Z) :
  int_min ≤ z ≤ int_max →
  Getenv "SLEEP_MINUTES" = fmt_d z →
  sleepMinutes (init Getenv) = z.
Proof.
  intros Hz Henv. unfold init. cbn [sleepMinutes]. by rewrite Henv, Atoi_fmt_d.
Qed.

Lemma init_reads_back_sleep_minutes_witness :
  sleepMinutes (init (getenvOf [("SLEEP_MINUTES", "-15")])) = -15.
Proof.
  apply (init_reads_back_sleep_minutes (getenvOf [("SLEEP_MINUTES", "-15")]) (-15)).
  - unfold int_min, int_max, int_bits. lia.
  - reflexivity.
Defined.

(** X4: whatever the environment holds, [init] sets [sleepMinutes] to an
    integer of the range of [int]; when [SLEEP_MINUTES] is the decimal form
    of an integer of any size, that is the integer itself if it is in the
    range and else the bound of [int] nearest to it, since the range error
    of [strconv.Atoi] is dropped; a variable that is not set gives 0. *)
Theorem init_clamps_sleep_minutes (Getenv : string → string) :
  int_min ≤ sleepMinutes (init Getenv) ≤ int_max ∧
  (∀ z, Getenv "SLEEP_MINUTES" = fmt_d z →
        sleepMinutes (init Getenv) = Z.max int_min (Z.min int_max z)) ∧
  (Getenv "SLEEP_MINUTES" = "" → sleepMinutes (init Getenv) = 0).
Proof.
  unfold init. cbn [sleepMinutes]. split; [apply Atoi_range|]. split.
  - intros z ->. apply Atoi_fmt_d_clamp.
  - by intros ->.
Qed.

Lemma init_clamps_sleep_minutes_witness :
  sleepMinutes (init (getenvOf [("SLEEP_MINUTES", "99999999999999999999")])) = int_max ∧
  sleepMinutes (init (getenvOf [("SLEEP_MINUTES", "-9223372036854775809")])) = int_min ∧
  sleepMinutes (init (getenvOf [])) = 0.
Proof.
  split; [|split].
  - destruct (init_clamps_sleep_minutes
                (getenvOf [("SLEEP_MINUTES", "99999999999999999999")])) as (_ & Hclamp & _).
    exact (Hclamp 99999999999999999999 eq_refl).
  - destruct (init_clamps_sleep_minutes
                (getenvOf [("SLEEP_MINUTES", "-9223372036854775809")])) as (_ & Hclamp & _).
    exact (Hclamp (-9223372036854775809) eq_refl).
  - destruct (init_clamps_sleep_minutes (getenvOf [])) as (_ & _ & Hunset).
    exact (Hunset eq_refl).
Defined.

(** X6: up to 153722867 minutes the pause of [main] is the product in
    nanoseconds; from the next value up to 307445734 the product leaves the
    range of the 64-bit duration and wraps to a negative one. *)
Theorem loopSleep_bounds (v : Vars) :
  (0 ≤ sleepMinutes v ≤ 153722867 → loopSleep v = sleepMinutes v * Minute) ∧
  (153722867 < sleepMinutes v ≤ 307445734 → loopSleep v < 0).
Proof.
  unfold loopSleep, Minute. split; intros Hm.
  - apply wrap_int_small. unfold int_min, int_max, int_bits. lia.
  - unfold wrap_int, int_bits.
    replace ((sleepMinutes v * 60000000000 + 2 ^ (64 - 1)) `mod` 2 ^ 64)
      with (sleepMinutes v * 60000000000 + 2 ^ (64 - 1) - 2 ^ 64).
    + lia.
    + apply Z.mod_unique with (q := 1); lia.
Qed.

Lemma loopSleep_bounds_witness :
  loopSleep (Sample.varsOf "" "" true false) = 5 * Minute.
Proof.
  apply (loopSleep_bounds (Sample.varsOf "" "" true false)). simpl. lia.
Defined.

(** ** The listing of the groups *)

Lemma forEach_page_run (name : string) (page records : list Group) :
  Forall named page →
  forEach page (λ group records,
      n <- ResM.deref (AutoScalingGroupName group) ;;
      Ok (if Contains n name then records ++ [group] else records))%res records
    = Ok (records ++ filter (λ g, nameContains name g) page).
Proof.
  intros Hnamed. revert records.
  induction Hnamed as [|g page [n Hn] _ IH]; intros records; simpl.
  - by rewrite app_nil_r.
  - rewrite Hn. simpl. rewrite IH.
    assert (nameContains name g = Contains n name) as Hc
      by (unfold nameContains; by rewrite Hn).
    rewrite filter_cons.
    destruct (decide (nameContains name g)) as [Hd|Hd]; rewrite Hc in Hd;
      destruct (Contains n name); try done.
    by rewrite <- app_assoc.
Qed.

Lemma forEach_page_Panic (name : string) (page records : list Group) :
  Exists (λ g, AutoScalingGroupName g = None) page →
  forEach page (λ group records,
      n <- ResM.deref (AutoScalingGroupName group) ;;
      Ok (if Contains n name then records ++ [group] else records))%res records
    = Panic nil_deref.
Proof.
  revert records. induction page as [|g page IH]; intros records Hex.
  - by apply Exists_nil in Hex.
  - simpl. destruct (AutoScalingGroupName g) as [n|] eqn:Hn; simpl; [|done].
    apply IH. apply Exists_cons in Hex as [Hg|Hex]; [congruence|done].
Qed.

Lemma pages_run (name : string) (pages : list (list Group)) (err : option string)
    (records : list Group) :
  Forall named (concat pages) →
  DescribeAutoScalingGroupsPages pages err (pageCallback name) records
    = Ok (records ++ filter (λ g, nameContains name g) (concat pages)).
Proof.
  revert records. induction pages as [|page rest IH]; intros records Hnamed; simpl.
  - by rewrite app_nil_r.
  - simpl in Hnamed. apply Forall_app in Hnamed as [Hpage Hrest].
    unfold pageCallback at 1. rewrite (forEach_page_run name page records Hpage).
    simpl. rewrite filter_app, app_assoc.
    destruct rest as [|page' rest].
    + simpl. rewrite app_nil_r. by destruct (bool_decide (err = None)).
    + rewrite bool_decide_false by done. simpl negb. cbv iota. by apply IH.
Qed.

Lemma pages_Panic (name : string) (pages : list (list Group)) (err : option string)
    (records : list Group) :
  Exists (λ g, AutoScalingGroupName g = None) (concat pages) →
  DescribeAutoScalingGroupsPages pages err (pageCallback name) records = Panic nil_deref.
Proof.
  revert records. induction pages as [|page rest IH]; intros records Hex; simpl.
  - by apply Exists_nil in Hex.
  - simpl in Hex. apply Exists_app in Hex.
    unfold pageCallback at 1.
    destruct (forEach page _ records) as [recs|msg] eqn:Hpage; simpl.
    + destruct Hex as [Hex|Hex].
      { by rewrite (forEach_page_Panic name page records Hex) in Hpage. }
      destruct rest as [|page' rest]; [by apply Exists_nil in Hex|].
      rewrite bool_decide_false by done. simpl negb. cbv iota. by apply IH.
    + destruct (decide (Exists (λ g, AutoScalingGroupName g = None) page)) as [Hp|Hp].
      { rewrite (forEach_page_Panic name page records Hp) in Hpage. congruence. }
      apply not_Exists_Forall in Hp; [|apply _].
      rewrite forEach_page_run in Hpage; [done|].
      eapply Forall_impl; [exact Hp|]. intros g Hg. simpl in Hg.
      unfold named. by destruct (AutoScalingGroupName g).
Qed.

Section Search.
Context {S : Type} `{!ConfigMapInterface S}.
Implicit Types (w : World S) (e : Env).

(** X7: when every listed group has a name, [awsSearchEC2ASGByName]
    returns the groups of all pages whose name contains its argument, in
    the order of the listing; it prints one line when the listing ended
    with an error and nothing otherwise, and sends no request. *)
Theorem search_returns_matching_groups e name w :
  Forall named (concat (asgPages (autoscalingClient e))) →
  awsSearchEC2ASGByName e name w =
    (Ok (filter (λ g, nameContains name g) (concat (asgPages (autoscalingClient e)))),
     match asgErr (autoscalingClient e) with
     | Some err => withStdout (stdout w ++ [msgListingFailed err]) w
     | None => w
     end).
Proof.
  intros Hnamed. rewrite awsSearch_run. by rewrite (pages_run name _ _ [] Hnamed).
Qed.

(** X8: a listed group without a name makes [awsSearchEC2ASGByName] end
    in a nil dereference, whether or not its name would have matched;
    nothing is printed, not even the error of the listing. *)
Theorem search_faults_on_missing_name e name w :
  Exists (λ g, AutoScalingGroupName g = None) (concat (asgPages (autoscalingClient e))) →
  awsSearchEC2ASGByName e name w = (Panic nil_deref, w).
Proof.
  intros Hex. rewrite awsSearch_run. by rewrite (pages_Panic name _ _ [] Hex).
Qed.

End Search.

Lemma search_returns_matching_groups_witness :
  awsSearchEC2ASGByName Transport.failEnv "A" Runs.emptyStore =
    (Ok [Sample.group "A" "lt-a" "S1"],
     withStdout [msgListingFailed "RequestError: send request failed"] Runs.emptyStore).
Proof.
  apply (search_returns_matching_groups Transport.failEnv "A" Runs.emptyStore).
  repeat constructor; by eexists.
Defined.

Lemma search_faults_on_missing_name_witness :
  awsSearchEC2ASGByName
    (Sample.envOf (Sample.varsOf "" "" true false)
       [[Sample.group "A" "lt-a" "S1"];
        [{| AutoScalingGroupName := None; Group_LaunchTemplate := None;
            Group_MixedInstancesPolicy := None; VPCZoneIdentifier := None |}]]
       None Sample.abcEC2)
    "zzz" Runs.emptyStore
  = (Panic nil_deref, Runs.emptyStore).
Proof.
  apply (search_faults_on_missing_name
           (Sample.envOf (Sample.varsOf "" "" true false)
              [[Sample.group "A" "lt-a" "S1"];
               [{| AutoScalingGroupName := None; Group_LaunchTemplate := None;
                   Group_MixedInstancesPolicy := None; VPCZoneIdentifier := None |}]]
              None Sample.abcEC2)
           "zzz" Runs.emptyStore).
  apply Exists_cons_tl, Exists_cons_hd. reflexivity.
Defined.

(** ** The sum of the free addresses *)

Lemma forEach_addSubnet_run (ec2 : EC2) (ids : list string) (counts : list Z) (acc : Z) :
  mapM (availableCount ec2) ids = Some counts →
  forEach ids (addSubnet ec2) acc = Ok (foldl int_add acc counts).
Proof.
  intros Hcounts. apply mapM_Some_1 in Hcounts. revert acc.
  induction Hcounts as [|id c ids counts Hc _ IH]; intros acc; simpl; [done|].
  unfold addSubnet at 1. unfold availableCount in Hc.
  destruct (DescribeSubnets ec2 id).1 as [out|]; simpl in *; [|done].
  destruct (Subnets out) as [|s0 rest]; simpl in *; [done|].
  rewrite Hc. simpl. apply IH.
Qed.

(** X9: the loop over the subnets succeeds exactly when the group has a
    subnet field and the lookup of each of its fields yields a first subnet
    with a count; its result is then the sum of these counts reduced to the
    64 bits of [int] (the sum itself when that is in range).  A subnet id
    listed twice is counted twice. *)
Theorem freeIPsOf_iff_sum (ec2 : EC2) (asg : Group) (f : Z) :
  freeIPsOf ec2 asg = Ok f ↔
  ∃ score, spec_CapacityScore ec2 asg = Some score ∧ f = wrap_int score.
Proof.
  split; [apply freeIPsOf_Ok|].
  intros (score & Hscore & ->). rewrite freeIPsOf_unfold.
  unfold spec_CapacityScore in Hscore.
  destruct (VPCZoneIdentifier asg) as [zone|]; simpl in *; [|done].
  destruct (mapM (availableCount ec2) (Split zone ",")) as [counts|] eqn:Hcounts;
    simpl in Hscore; [|done].
  injection Hscore as <-.
  rewrite (forEach_addSubnet_run ec2 _ counts 0 Hcounts).
  change 0 with (wrap_int 0) at 1. by rewrite foldl_int_add.
Qed.

(** ** What the tiers hold *)

Lemma entryOf_Some_template (e : Env) (asg : Group) (f : Z) (n : string) :
  entryOf e asg = Ok (Some (f, n)) →
  ∃ lt, ltNameOf asg = Ok lt ∧ Contains lt (ltContains (vars e)) = true.
Proof.
  unfold entryOf. destruct (ltNameOf asg) as [lt|]; simpl; [|done].
  destruct (Contains lt (ltContains (vars e))) eqn:Hc; [|done].
  intros _. by exists lt.
Qed.

Lemma entryOf_None_template (e : Env) (asg : Group) :
  entryOf e asg = Ok None →
  ∃ lt, ltNameOf asg = Ok lt ∧ Contains lt (ltContains (vars e)) = false.
Proof.
  unfold entryOf. destruct (ltNameOf asg) as [lt|]; simpl; [|done].
  destruct (Contains lt (ltContains (vars e))) eqn:Hc; [|by exists lt].
  destruct (freeIPsOf (ec2Client e) asg); simpl; [|done].
  by destruct (AutoScalingGroupName asg).
Qed.

Lemma noEmptyTier_addEntry (m : gmap Z (list string)) (r : option (Z * string)) :
  noEmptyTier m → noEmptyTier (addEntry m r).
Proof.
  intros Hm. destruct r as [[f n]|]; [|done]. simpl. unfold addToTier.
  intros k names. destruct (m !! f) as [old|] eqn:Hf.
  - destruct (decide (f = k)) as [->|Hne].
    + rewrite lookup_insert_eq. intros [= <-]. by destruct old.
    + rewrite lookup_insert_ne by done. apply Hm.
  - destruct (decide (f = k)) as [->|Hne].
    + rewrite lookup_insert_eq. by intros [= <-].
    + rewrite lookup_insert_ne by done. apply Hm.
Qed.

Lemma noEmptyTier_foldl (es : list (option (Z * string))) (m : gmap Z (list string)) :
  noEmptyTier m → noEmptyTier (foldl addEntry m es).
Proof.
  revert m. induction es as [|r es IH]; intros m Hm; [done|].
  simpl. by apply IH, noEmptyTier_addEntry.
Qed.

Lemma totalNames_insert (m : gmap Z (list string)) (k : Z) (names : list string) :
  m !! k = None →
  totalNames (<[k := names]> m) = (length names + totalNames m)%nat.
Proof.
  intros Hk. unfold totalNames.
  rewrite map_fold_insert_L; [done| |done]. intros. lia.
Qed.

Lemma totalNames_delete (m : gmap Z (list string)) (k : Z) (names : list string) :
  m !! k = Some names →
  totalNames m = (length names + totalNames (delete k m))%nat.
Proof.
  intros Hk. unfold totalNames.
  rewrite (map_fold_delete_L _ _ k names m); [done| |done]. intros. lia.
Qed.

Lemma totalNames_addToTier (m : gmap Z (list string)) (f : Z) (n : string) :
  totalNames (addToTier m f n) = Datatypes.S (totalNames m).
Proof.
  unfold addToTier. destruct (m !! f) as [names|] eqn:Hf.
  - rewrite <- insert_delete_eq.
    rewrite totalNames_insert by apply lookup_delete_eq.
    rewrite (totalNames_delete m f names Hf), length_app. simpl. lia.
  - by rewrite totalNames_insert.
Qed.

Lemma totalNames_foldl (es : list (option (Z * string))) (m : gmap Z (list string)) :
  totalNames (foldl addEntry m es) = (totalNames m + adding es)%nat.
Proof.
  revert m. induction es as [|r es IH]; intros m.
  - unfold adding. simpl. lia.
  - simpl foldl. rewrite IH. unfold adding. rewrite filter_cons.
    destruct r as [[f n]|]; simpl.
    + rewrite totalNames_addToTier. lia.
    + done.
Qed.

Lemma adding_kept (e : Env) (l : list Group) (es : list (option (Z * string))) :
  Forall2 (λ asg r, entryOf e asg = Ok r)
    (filter (λ g, nameContains (asgContains (vars e)) g) l) es →
  adding es = length (filter (λ g, kept e g) l).
Proof.
  revert es. induction l as [|g l IH]; intros es Hes.
  - rewrite filter_nil in Hes. by apply Forall2_nil_inv_l in Hes as ->.
  - rewrite filter_cons in Hes. rewrite filter_cons.
    destruct (decide (nameContains (asgContains (vars e)) g)) as [Hsel|Hsel].
    + apply Forall2_cons_inv_l in Hes as (r & es' & Hr & Hes' & ->).
      apply Is_true_true in Hsel.
      pose proof (IH es' Hes') as IH'. unfold adding in IH' |- *.
      rewrite filter_cons.
      assert (kept e g = bool_decide (is_Some r)) as Hk.
      { unfold kept. rewrite Hsel. simpl andb. destruct r as [[f n]|].
        - destruct (entryOf_Some_template e g f n Hr) as (lt & -> & ->).
          by rewrite bool_decide_true.
        - destruct (entryOf_None_template e g Hr) as (lt & -> & ->).
          rewrite bool_decide_false; [done|]. by intros [? ?]. }
      destruct (decide (kept e g)) as [Hd|Hd], (decide (is_Some r)) as [Hs|Hs];
        simpl; rewrite ?IH'; try done.
      * rewrite Hk, bool_decide_false in Hd by done. done.
      * rewrite Hk, bool_decide_true in Hd by done. done.
    + assert (kept e g = false) as Hk.
      { unfold kept. apply Is_true_false in Hsel. by rewrite Hsel. }
      destruct (decide (kept e g)) as [Hd|Hd]; [by rewrite Hk in Hd|]. by apply IH.
Qed.

Section Tiers.
Context {S : Type} `{!ConfigMapInterface S}.
Implicit Types (w : World S) (e : Env) (m : gmap Z (list string)).

(** X10: the tiers of a run hold nothing but kept groups: a name under
    a key is the name of a listed group whose name contains [asgContains],
    whose launch template's name contains [ltContains] and whose computed
    sum of free addresses is that key. *)
Theorem tier_names_come_from_kept_groups e w m w' (k : Z) (n : string) :
  computePriorities e w = (Ok m, w') →
  n ∈ tier m k →
  ∃ asg lt,
    asg ∈ concat (asgPages (autoscalingClient e)) ∧
    AutoScalingGroupName asg = Some n ∧
    Contains n (asgContains (vars e)) = true ∧
    ltNameOf asg = Ok lt ∧
    Contains lt (ltContains (vars e)) = true ∧
    freeIPsOf (ec2Client e) asg = Ok k.
Proof.
  intros Hrun Hn. apply computePriorities_Ok in Hrun as (es & Hes & ->).
  rewrite tier_foldl_addEntry in Hn. apply elem_of_app in Hn as [Hn|Hn].
  { unfold tier in Hn. rewrite lookup_empty in Hn. by apply elem_of_nil in Hn. }
  apply elem_of_namesAt, list_elem_of_lookup in Hn as [j Hj].
  destruct (Forall2_lookup_r _ _ _ _ _ Hes Hj) as (asg & Hasg & Hr).
  apply list_elem_of_lookup_2, list_elem_of_filter in Hasg as [Hsel Hin].
  destruct (entryOf_Some e asg k n Hr) as [Hname Hfree].
  destruct (entryOf_Some_template e asg k n Hr) as (lt & Hlt & Hc).
  exists asg, lt. repeat split; try done.
  unfold nameContains in Hsel. rewrite Hname in Hsel. by apply Is_true_true.
Qed.

(** X11: the tiers of a run have no empty tier, and together they hold
    as many names as there are kept groups in the listing: every kept
    group adds one name, also when two groups bear the same name. *)
Theorem tiers_hold_one_name_per_kept_group e w m w' :
  computePriorities e w = (Ok m, w') →
  (∀ k names, m !! k = Some names → names ≠ []) ∧
  totalNames m =
    length (filter (λ g, kept e g) (concat (asgPages (autoscalingClient e)))).
Proof.
  intros Hrun. apply computePriorities_Ok in Hrun as (es & Hes & ->). split.
  - apply noEmptyTier_foldl. intros k names. by rewrite lookup_empty.
  - rewrite totalNames_foldl. unfold totalNames at 1. rewrite map_fold_empty.
    simpl. by apply adding_kept.
Qed.

End Tiers.

Lemma tier_names_come_from_kept_groups_witness :
  ∃ asg lt,
    asg ∈ concat (asgPages (autoscalingClient Sample.abcEnv)) ∧
    AutoScalingGroupName asg = Some "B" ∧
    Contains "B" "" = true ∧
    ltNameOf asg = Ok lt ∧
    Contains lt "" = true ∧
    freeIPsOf Sample.abcEC2 asg = Ok 8.
Proof.
  apply (tier_names_come_from_kept_groups Sample.abcEnv Runs.emptyStore
           Runs.tiersABC Runs.emptyStore 8 "B").
  - vm_compute. reflexivity.
  - by_evaluation.
Defined.

Lemma tiers_hold_one_name_per_kept_group_witness :
  (∀ k names, Runs.tiersABC !! k = Some names → names ≠ []) ∧
  totalNames Runs.tiersABC = 3%nat.
Proof.
  apply (tiers_hold_one_name_per_kept_group Sample.abcEnv Runs.emptyStore
           Runs.tiersABC Runs.emptyStore).
  vm_compute. reflexivity.
Defined.

(** ** Runs that end well *)

Lemma evaluable_entry (e : Env) (g : Group) :
  named g → evaluable e g → ∃ r, entryOf e g = Ok r.
Proof.
  intros [n Hn] (lt & Hlt & Hzone). unfold entryOf. rewrite Hlt. simpl.
  destruct (Contains lt (ltContains (vars e))); [|by eexists].
  destruct Hzone as (zone & Hz & Hcounts); [done|].
  assert (is_Some (mapM (availableCount (ec2Client e)) (Split zone ","%char)))
    as [counts Hmap] by by apply mapM_is_Some.
  rewrite freeIPsOf_unfold, Hz. simpl.
  rewrite (forEach_addSubnet_run _ _ counts 0 Hmap). simpl. rewrite Hn. by eexists.
Qed.

Lemma entries_exist (e : Env) (records : list Group) :
  Forall (λ g, ∃ r, entryOf e g = Ok r) records →
  ∃ es, Forall2 (λ asg r, entryOf e asg = Ok r) records es.
Proof.
  induction 1 as [|g records [r Hr] _ [es Hes]].
  - exists []. constructor.
  - exists (r :: es). by constructor.
Qed.

Lemma foldl_addEntry_None (es : list (option (Z * string))) (m : gmap Z (list string)) :
  Forall (λ r, r = None) es → foldl addEntry m es = m.
Proof.
  intros Hes. revert m. induction Hes as [|r es -> _ IH]; intros m; [done|]. apply IH.
Qed.

Lemma renderPriorities_empty (e : Env) :
  rangeOk e →
  renderPriorities e ∅ =
    if catchAll (vars e) then ("1:" +:+ nl) +:+ "  - .*" +:+ nl else "".
Proof.
  intros Hr. rewrite renderPriorities_listing.
  destruct (sorted_keys_spec e ∅ Hr) as (_ & _ & ->).
  rewrite map_to_list_empty. by destruct (catchAll (vars e)).
Qed.

Section Progress.
Context {S : Type} `{!ConfigMapInterface S}.
Implicit Types (w : World S) (e : Env) (m : gmap Z (list string)).

Lemma considerASG_run e asg m w r :
  named asg → entryOf e asg = Ok r →
  ∃ w', considerASG e asg m w = (Ok (addEntry m r), w').
Proof.
  intros [n Hn]. unfold considerASG, entryOf. rewrite Hn.
  destruct (ltNameOf asg) as [lt|]; simpl; [|done].
  unfold bind, when, lift, Println, print, ret.
  destruct (Contains lt (ltContains (vars e))).
  - destruct (freeIPsOf (ec2Client e) asg) as [f|]; simpl; [|done].
    intros [= <-]. destruct (debug (vars e)); simpl; by eexists.
  - intros [= <-]. destruct (debug (vars e)); simpl; by eexists.
Qed.

Lemma forEachM_considerASG_run e (records : list Group) es m w :
  Forall named records →
  Forall2 (λ asg r, entryOf e asg = Ok r) records es →
  ∃ w', forEachM records (considerASG e) m w = (Ok (foldl addEntry m es), w').
Proof.
  intros Hnamed Hes. revert m w.
  induction Hes as [|asg r records es Hr _ IH]; intros m w.
  - by exists w.
  - apply Forall_cons in Hnamed as [Hasg Hnamed]. simpl. unfold bind.
    destruct (considerASG_run e asg m w r Hasg Hr) as [w1 ->]. by apply IH.
Qed.

(** Every [mainLoop] without fault in the first half ends well: the
    second half has no fault of its own. *)
Lemma publish_Ok e m w : (publish e m w).1 = Ok tt.
Proof.
  destruct (BuildConfigFromFlags e) as [?|] eqn:Hb; [by unfold publish; rewrite Hb|].
  destruct (NewForConfig e) as [?|] eqn:Hn; [by unfold publish; rewrite Hb, Hn|].
  destruct (Get (caNamespace (vars e)) caPriorityExpander (store w))
    as [[first|err] s1] eqn:Hget1.
  - destruct (Get (caNamespace (vars e)) caPriorityExpander s1)
      as [[cm|err] s2] eqn:Hget2.
    + by destruct (publish_found e m w first s1 cm s2 Hb Hn Hget1 Hget2) as [-> _].
    + by rewrite (publish_lost e m w first s1 err s2 Hb Hn Hget1 Hget2).
  - destruct (skipCMCreation (vars e)) eqn:Hskip.
    + by rewrite (publish_absent_skip e m w err s1 Hb Hn Hget1 Hskip).
    + by destruct (publish_absent_create e m w err s1 Hb Hn Hget1 Hskip) as [-> _].
Qed.

Lemma computePriorities_run e w :
  Forall named (concat (asgPages (autoscalingClient e))) →
  Forall (λ g, nameContains (asgContains (vars e)) g → evaluable e g)
    (concat (asgPages (autoscalingClient e))) →
  ∃ m w', computePriorities e w = (Ok m, w').
Proof.
  intros Hnamed Heval.
  set (records := filter (λ g, nameContains (asgContains (vars e)) g)
                    (concat (asgPages (autoscalingClient e)))).
  assert (Forall named records) as Hnamed'.
  { apply Forall_forall. intros g Hg. apply list_elem_of_filter in Hg as [_ Hg].
    by apply (proj1 (Forall_forall _ _) Hnamed). }
  assert (Forall (λ g, ∃ r, entryOf e g = Ok r) records) as Hentries.
  { apply Forall_forall. intros g Hg. apply list_elem_of_filter in Hg as [Hsel Hg].
    apply evaluable_entry.
    - by apply (proj1 (Forall_forall _ _) Hnamed).
    - by apply (proj1 (Forall_forall _ _) Heval). }
  destruct (entries_exist e records Hentries) as [es Hes].
  pose proof (header_Ok e w) as Hhead.
  unfold computePriorities, bind. unfold header in Hhead.
  destruct (when (debug (vars e)) _ w) as [[[]|msg] w1]; [|done].
  rewrite awsSearch_run, (pages_run _ _ _ [] Hnamed). simpl app. fold records.
  destruct (forEachM_considerASG_run e records es ∅
              (match asgErr (autoscalingClient e) with
               | Some err => withStdout (stdout w1 ++ [msgListingFailed err]) w1
               | None => w1
               end) Hnamed' Hes) as [w' Hrun].
  by exists (foldl addEntry ∅ es), w'.
Qed.

(** X12: a cycle ends without fault when every listed group has a name
    and every group selected by name has a launch template name and, if
    that name passes the filter, a subnet field whose every subnet yields
    a count; a failing store or a client that cannot be built does not
    make it fault. *)
Theorem mainLoop_ends_well e w :
  Forall named (concat (asgPages (autoscalingClient e))) →
  Forall (λ g, nameContains (asgContains (vars e)) g → evaluable e g)
    (concat (asgPages (autoscalingClient e))) →
  (mainLoop e w).1 = Ok tt.
Proof.
  intros Hnamed Heval.
  destruct (computePriorities_run e w Hnamed Heval) as (m & w' & Hrun).
  unfold mainLoop, bind. rewrite Hrun. apply publish_Ok.
Qed.

(** X13: when no listed group is kept (none passes the filter on its
    name, or those that do have a launch template whose name does not pass
    the other filter), the tiers are empty and, for any order of [range],
    the listing is the catch-all block alone when [catchAll] is set and the
    empty text otherwise. *)
Theorem nothing_kept_gives_catch_all_only e w :
  Forall named (concat (asgPages (autoscalingClient e))) →
  Forall (λ g, nameContains (asgContains (vars e)) g →
               ∃ lt, ltNameOf g = Ok lt ∧ Contains lt (ltContains (vars e)) = false)
    (concat (asgPages (autoscalingClient e))) →
  rangeOk e →
  (∃ w', computePriorities e w = (Ok ∅, w')) ∧
  payload e ∅ =
    {[ "priorities" :=
         if catchAll (vars e) then ("1:" +:+ nl) +:+ "  - .*" +:+ nl else "" ]}.
Proof.
  intros Hnamed Hnone Hrange. split.
  - destruct (computePriorities_run e w Hnamed) as (m & w' & Hrun).
    { eapply Forall_impl; [exact Hnone|]. intros g Hg Hsel.
      destruct (Hg Hsel) as (lt & Hlt & Hc). exists lt. split; [done|].
      intros Hc'. congruence. }
    exists w'. rewrite Hrun. f_equal. f_equal.
    apply computePriorities_Ok in Hrun as (es & Hes & ->).
    apply foldl_addEntry_None. apply Forall_forall. intros r Hr.
    apply list_elem_of_lookup in Hr as [j Hj].
    destruct (Forall2_lookup_r _ _ _ _ _ Hes Hj) as (asg & Hasg & Hentry).
    apply list_elem_of_lookup_2, list_elem_of_filter in Hasg as [Hsel Hin].
    destruct (proj1 (Forall_forall _ _) Hnone asg Hin Hsel) as (lt & Hlt & Hc).
    destruct r as [[f n]|]; [|done].
    destruct (entryOf_Some_template e asg f n Hentry) as (lt' & Hlt' & Hc').
    congruence.
  - unfold payload. by rewrite renderPriorities_empty.
Qed.

End Progress.

Lemma mainLoop_ends_well_witness :
  (mainLoop Sample.abcEnv Runs.withExisting).1 = Ok tt.
Proof.
  apply (mainLoop_ends_well Sample.abcEnv Runs.withExisting).
  - repeat constructor; by eexists.
  - repeat constructor; intros _; eexists; (split; [reflexivity|]); intros _;
      eexists; (split; [reflexivity|]); repeat constructor; by eexists.
Defined.

Lemma nothing_kept_gives_catch_all_only_witness :
  (∃ w', computePriorities
           (Sample.envOf (Sample.varsOf "" "gpu" true false) [Sample.abc] None Sample.abcEC2)
           Runs.emptyStore = (Ok ∅, w')) ∧
  payload (Sample.envOf (Sample.varsOf "" "gpu" true false) [Sample.abc] None Sample.abcEC2) ∅ =
    {[ "priorities" := ("1:" +:+ nl) +:+ "  - .*" +:+ nl ]}.
Proof.
  apply (nothing_kept_gives_catch_all_only
           (Sample.envOf (Sample.varsOf "" "gpu" true false) [Sample.abc] None Sample.abcEC2)
           Runs.emptyStore).
  - repeat constructor; by eexists.
  - repeat constructor; intros _; eexists; by split.
  - intros m. reflexivity.
Defined.

(** ** The requests of a cycle *)

Lemma setData_same (cm : ConfigMap) : setData cm (Data cm) = cm.
Proof. by destruct cm. Qed.


Section Requests.
Context {S : Type} `{!ConfigMapInterface S}.
Implicit Types (w : World S) (e : Env) (m : gmap Z (list string)).

Lemma publish_no_client e m w :
  is_Some (BuildConfigFromFlags e) ∨ is_Some (NewForConfig e) →
  (publish e m w).1 = Ok tt ∧
  calls (publish e m w).2 = calls w ∧ store (publish e m w).2 = store w.
Proof.
  unfold publish. intros [[err Herr]|[err Herr]]; rewrite Herr.
  - done.
  - by destruct (BuildConfigFromFlags e).
Qed.




(** X15: when the Kubernetes configuration cannot be loaded or the client
    cannot be created, the cycle sends no request and leaves the store as it
    was, although the tiers have been computed. *)
Theorem no_client_no_request e w :
  is_Some (BuildConfigFromFlags e) ∨ is_Some (NewForConfig e) →
  calls (mainLoop e w).2 = calls w ∧ store (mainLoop e w).2 = store w.
Proof.
  intros Hno. pose proof (onlyPrints_computePriorities e w) as [Hc Hs].
  unfold mainLoop, bind.
  destruct (computePriorities e w) as [[m|msg] w1]; simpl in Hc, Hs; [|done].
  destruct (publish_no_client e m w1 Hno) as (_ & -> & ->). done.
Qed.

(** X16: when both lookups of the cycle succeed and the ConfigMap that
    the second one returns already holds the payload, the cycle still sends
    the update, and the object it sends is that ConfigMap, unchanged. *)
Theorem unchanged_payload_is_still_updated e m w first (s1 : S) cm (s2 : S) :
  BuildConfigFromFlags e = None → NewForConfig e = None →
  Get (caNamespace (vars e)) caPriorityExpander (store w) = (Value first, s1) →
  Get (caNamespace (vars e)) caPriorityExpander s1 = (Value cm, s2) →
  Data cm = payload e m →
  calls (publish e m w).2 =
    calls w ++ [CallGet (caNamespace (vars e)) caPriorityExpander;
                CallGet (caNamespace (vars e)) caPriorityExpander;
                CallUpdate (caNamespace (vars e)) cm].
Proof.
  intros Hb Hn Hget1 Hget2 Hdata.
  destruct (publish_found e m w first s1 cm s2 Hb Hn Hget1 Hget2) as (_ & Hc & _).
  by rewrite Hc, <- Hdata, setData_same.
Qed.

(** X17: a write that the store refuses is reported and not retried.
    When the lookup fails, creation is not skipped and the store refuses the
    creation, the cycle ends without fault after the lookup and the one
    creation, with the line [Error creating configmap] and the error as the
    last output.  When both lookups succeed and the store refuses the
    update of the object of the second lookup, the cycle ends without fault
    after the two lookups and the one update, with the line
    [Error updating configmap] and the error as the last output. *)
Theorem failed_write_is_reported e m w :
  BuildConfigFromFlags e = None → NewForConfig e = None →
  let ns := caNamespace (vars e) in
  (∀ err (s1 : S) err',
     Get ns caPriorityExpander (store w) = (Error err, s1) →
     skipCMCreation (vars e) = false →
     (Create ns (newConfigMap caPriorityExpander (payload e m)) s1).1 = Error err' →
     (publish e m w).1 = Ok tt ∧
     stdout (publish e m w).2 =
       (stdout w ++ debugListing e m) ++ ["Error creating configmap: " +:+ err' +:+ nl] ∧
     calls (publish e m w).2 =
       calls w ++ [CallGet ns caPriorityExpander;
                   CallCreate ns (newConfigMap caPriorityExpander (payload e m))]) ∧
  (∀ first (s1 : S) cm (s2 : S) err',
     Get ns caPriorityExpander (store w) = (Value first, s1) →
     Get ns caPriorityExpander s1 = (Value cm, s2) →
     (Update ns (setData cm (payload e m)) s2).1 = Error err' →
     (publish e m w).1 = Ok tt ∧
     stdout (publish e m w).2 =
       (stdout w ++ debugListing e m) ++ ["Error updating configmap: " +:+ err' +:+ nl] ∧
     calls (publish e m w).2 =
       calls w ++ [CallGet ns caPriorityExpander; CallGet ns caPriorityExpander;
                   CallUpdate ns (setData cm (payload e m))]).
Proof.
  intros Hb Hn ns. subst ns. split.
  - intros err s1 err' Hget Hskip Hcreate.
    destruct (publish_absent_create e m w err s1 Hb Hn Hget Hskip) as (Hok & Hc & _).
    split; [exact Hok|]. split; [|exact Hc].
    unfold publish, saveConfig, debugListing, bind, callGet, callCreate, when,
      Println, print, ret.
    rewrite Hb, Hn, Hget. simpl. rewrite Hskip.
    destruct (debug (vars e)); simpl; cbn [store];
      destruct (Create _ _ s1) as [r s']; simpl in Hcreate; subst r; simpl;
      by rewrite ?app_nil_r.
  - intros first s1 cm s2 err' Hget1 Hget2 Hupdate.
    destruct (publish_found e m w first s1 cm s2 Hb Hn Hget1 Hget2) as (Hok & Hc & _).
    split; [exact Hok|]. split; [|exact Hc].
    unfold publish, saveConfig, debugListing, bind, callGet, callUpdate, when,
      Println, print, ret.
    rewrite Hb, Hn, Hget1. simpl.
    destruct (debug (vars e)); simpl; rewrite Hget2; simpl; cbn [store];
      destruct (Update _ _ s2) as [r s']; simpl in Hupdate; subst r; simpl;
      by rewrite ?app_nil_r.
Qed.

End Requests.

Lemma no_client_no_request_witness :
  calls (mainLoop
           {| vars := vars Sample.abcEnv;
              autoscalingClient := autoscalingClient Sample.abcEnv;
              ec2Client := ec2Client Sample.abcEnv;
              BuildConfigFromFlags := Some "invalid configuration: no configuration has been provided";
              NewForConfig := None;
              rangeKeys := Sample.rangeAsStored |} Runs.withExisting).2 = [] ∧
  store (mainLoop
           {| vars := vars Sample.abcEnv;
              autoscalingClient := autoscalingClient Sample.abcEnv;
              ec2Client := ec2Client Sample.abcEnv;
              BuildConfigFromFlags := Some "invalid configuration: no configuration has been provided";
              NewForConfig := None;
              rangeKeys := Sample.rangeAsStored |} Runs.withExisting).2
    = Sample.storeWith Sample.existing.
Proof.
  apply (no_client_no_request
           {| vars := vars Sample.abcEnv;
              autoscalingClient := autoscalingClient Sample.abcEnv;
              ec2Client := ec2Client Sample.abcEnv;
              BuildConfigFromFlags := Some "invalid configuration: no configuration has been provided";
              NewForConfig := None;
              rangeKeys := Sample.rangeAsStored |} Runs.withExisting).
  left. by eexists.
Defined.

Lemma unchanged_payload_is_still_updated_witness :
  calls (publish Sample.abcEnv Runs.tiersABC
           (initWorld (S := list (Reply ConfigMap))
              [Value Sample.existing;
               Value (setData Runs.newer (payload Sample.abcEnv Runs.tiersABC))])).2 =
    [CallGet "kube-system" caPriorityExpander;
     CallGet "kube-system" caPriorityExpander;
     CallUpdate "kube-system" (setData Runs.newer (payload Sample.abcEnv Runs.tiersABC))].
Proof.
  exact (unchanged_payload_is_still_updated Sample.abcEnv Runs.tiersABC
           (initWorld (S := list (Reply ConfigMap))
              [Value Sample.existing;
               Value (setData Runs.newer (payload Sample.abcEnv Runs.tiersABC))])
           Sample.existing
           [Value (setData Runs.newer (payload Sample.abcEnv Runs.tiersABC))]
           (setData Runs.newer (payload Sample.abcEnv Runs.tiersABC)) []
           eq_refl eq_refl eq_refl eq_refl eq_refl).
Defined.

Lemma failed_write_is_reported_witness :
  stdout (publish Sample.abcEnv Runs.tiersABC (initWorld tt)).2 =
    ["Error creating configmap: forbidden" +:+ nl] ∧
  stdout (publish Sample.abcEnv Runs.tiersABC (initWorld Sample.existing)).2 =
    ["Error updating configmap: forbidden" +:+ nl].
Proof.
  split.
  - destruct (failed_write_is_reported Sample.abcEnv Runs.tiersABC (initWorld tt)
                eq_refl eq_refl) as [Hcreate _].
    destruct (Hcreate ("configmaps " +:+ caPriorityExpander +:+ " not found") tt "forbidden"
                eq_refl eq_refl eq_refl) as (_ & Hout & _).
    exact Hout.
  - destruct (failed_write_is_reported Sample.abcEnv Runs.tiersABC
                (initWorld Sample.existing) eq_refl eq_refl) as [_ Hupdate].
    destruct (Hupdate Sample.existing Sample.existing Sample.existing Sample.existing
                "forbidden" eq_refl eq_refl eq_refl) as (_ & Hout & _).
    exact Hout.
Defined.

(** ** The loop of [main] *)

Section MainLoop.
Context {S : Type} `{!ConfigMapInterface S}.
Implicit Types (w : World S) (e : Env).



End MainLoop.

(** ** What the debug mode changes *)

Lemma selected_named (name : string) (l : list Group) :
  Forall named (filter (λ g, nameContains name g) l).
Proof.
  apply Forall_forall. intros g Hg. apply list_elem_of_filter in Hg as [Hsel _].
  unfold nameContains in Hsel. unfold named.
  by destruct (AutoScalingGroupName g).
Qed.

Lemma filter_all {A : Type} (P : A → Prop) `{!∀ x, Decision (P x)} (l : list A) :
  Forall P l → filter P l = l.
Proof.
  induction 1 as [|x l Hx _ IH]; [done|]. by rewrite filter_cons_True, IH.
Qed.

Section Debug.
Context {S : Type} `{!ConfigMapInterface S}.
Implicit Types (w : World S) (e : Env) (m : gmap Z (list string)).

Lemma considerASG_result e asg m w :
  named asg →
  (considerASG e asg m w).1 = ResM.bind (entryOf e asg) (λ r, Ok (addEntry m r)).
Proof.
  intros [n Hn]. unfold considerASG, entryOf, bind, when, lift, Println, print, ret.
  rewrite Hn. simpl.
  destruct (ltNameOf asg) as [lt|]; simpl; [|by destruct (debug (vars e))].
  destruct (Contains lt (ltContains (vars e))); [|by destruct (debug (vars e))].
  destruct (freeIPsOf (ec2Client e) asg) as [f|]; simpl; by destruct (debug (vars e)).
Qed.

Lemma forEachM_result e (records : list Group) m w :
  Forall named records →
  (forEachM records (considerASG e) m w).1 =
  forEach records (λ asg m, ResM.bind (entryOf e asg) (λ r, Ok (addEntry m r))) m.
Proof.
  intros Hnamed. revert m w.
  induction Hnamed as [|asg records Hasg _ IH]; intros m w; [done|].
  simpl. unfold bind. pose proof (considerASG_result e asg m w Hasg) as Hres.
  destruct (considerASG e asg m w) as [[m1|msg] w1]; simpl in Hres; rewrite <- Hres.
  - apply IH.
  - done.
Qed.

(** The result of the first half of [mainLoop]: the pager's, then the
    entries added one after the other. *)
Lemma computePriorities_result e w :
  (computePriorities e w).1 =
  ResM.bind
    (DescribeAutoScalingGroupsPages (asgPages (autoscalingClient e))
       (asgErr (autoscalingClient e)) (pageCallback (asgContains (vars e))) [])
    (tiersOf e).
Proof.
  pose proof (header_Ok e w) as Hhead.
  unfold computePriorities, bind. unfold header in Hhead.
  destruct (when (debug (vars e)) _ w) as [[[]|msg] w1]; [|done].
  rewrite awsSearch_run.
  destruct (DescribeAutoScalingGroupsPages _ _ _ _) as [records|msg] eqn:Hpager; [|done].
  apply pages_Ok in Hpager. simpl in Hpager. subst records.
  simpl. apply forEachM_result, selected_named.
Qed.

Lemma publish_from_any_output e m w (o : list string) :
  (publish e m (withStdout o w)).1 = (publish e m w).1 ∧
  calls (publish e m (withStdout o w)).2 = calls (publish e m w).2 ∧
  store (publish e m (withStdout o w)).2 = store (publish e m w).2.
Proof.
  destruct (logs_publish e m w) as (out & _ & Hrun). by rewrite (Hrun o).
Qed.

Lemma publish_withDebug e m w (b : bool) :
  (publish (withDebug b e) m w).1 = (publish e m w).1 ∧
  calls (publish (withDebug b e) m w).2 = calls (publish e m w).2 ∧
  store (publish (withDebug b e) m w).2 = store (publish e m w).2.
Proof.
  rewrite !publish_Ok. split; [done|].
  destruct (BuildConfigFromFlags e) as [err|] eqn:Hb.
  { destruct (publish_no_client e m w) as (_ & -> & ->); [left; by eexists|].
    destruct (publish_no_client (withDebug b e) m w) as (_ & -> & ->); [|done].
    left. simpl. by eexists. }
  destruct (NewForConfig e) as [err|] eqn:Hn.
  { destruct (publish_no_client e m w) as (_ & -> & ->); [right; by eexists|].
    destruct (publish_no_client (withDebug b e) m w) as (_ & -> & ->); [|done].
    right. simpl. by eexists. }
  destruct (Get (caNamespace (vars e)) caPriorityExpander (store w))
    as [[first|err] s1] eqn:Hget1.
  - destruct (Get (caNamespace (vars e)) caPriorityExpander s1)
      as [[cm|err] s2] eqn:Hget2.
    + destruct (publish_found e m w first s1 cm s2 Hb Hn Hget1 Hget2) as (_ & -> & ->).
      by destruct (publish_found (withDebug b e) m w first s1 cm s2 Hb Hn Hget1 Hget2)
        as (_ & -> & ->).
    + rewrite (publish_lost e m w first s1 err s2 Hb Hn Hget1 Hget2).
      by rewrite (publish_lost (withDebug b e) m w first s1 err s2 Hb Hn Hget1 Hget2).
  - destruct (skipCMCreation (vars e)) eqn:Hskip.
    + rewrite (publish_absent_skip e m w err s1 Hb Hn Hget1 Hskip).
      by rewrite (publish_absent_skip (withDebug b e) m w err s1 Hb Hn Hget1 Hskip).
    + destruct (publish_absent_create e m w err s1 Hb Hn Hget1 Hskip) as (_ & -> & ->).
      by destruct (publish_absent_create (withDebug b e) m w err s1 Hb Hn Hget1 Hskip)
        as (_ & -> & ->).
Qed.

(** X20: the variable [debug] changes what a cycle prints and nothing
    else: with it on or off the cycle has the same result (the same fault,
    if any), sends the same requests with the same payload and leaves the
    same store. *)
Theorem debug_changes_output_only e w (b : bool) :
  (mainLoop (withDebug b e) w).1 = (mainLoop e w).1 ∧
  calls (mainLoop (withDebug b e) w).2 = calls (mainLoop e w).2 ∧
  store (mainLoop (withDebug b e) w).2 = store (mainLoop e w).2.
Proof.
  pose proof (computePriorities_result e w) as Hres.
  pose proof (computePriorities_result (withDebug b e) w) as Hres'.
  change (ResM.bind _ (tiersOf (withDebug b e)))
    with (ResM.bind
            (DescribeAutoScalingGroupsPages (asgPages (autoscalingClient e))
               (asgErr (autoscalingClient e)) (pageCallback (asgContains (vars e))) [])
            (tiersOf e)) in Hres'.
  rewrite <- Hres in Hres'.
  pose proof (onlyPrints_computePriorities e w) as [Hc Hs].
  pose proof (onlyPrints_computePriorities (withDebug b e) w) as [Hc' Hs'].
  unfold mainLoop, bind.
  destruct (computePriorities e w) as [[m|msg] w1],
    (computePriorities (withDebug b e) w) as [[m'|msg'] w1'];
    simpl in *; try done.
  - injection Hres' as ->.
    assert (w1' = withStdout (stdout w1') w1) as ->.
    { destruct w1', w1. unfold withStdout. simpl in *. congruence. }
    destruct (publish_withDebug e m (withStdout (stdout w1') w1) b) as (-> & -> & ->).
    apply publish_from_any_output.
  - injection Hres' as ->. repeat split; congruence.
Qed.

(** X21: with neither filter set, a cycle without fault puts every
    listed group into a tier: the tiers hold as many names as the listing
    has groups. *)
Theorem no_filter_keeps_every_group e w m w' :
  asgContains (vars e) = "" → ltContains (vars e) = "" →
  computePriorities e w = (Ok m, w') →
  totalNames m = length (concat (asgPages (autoscalingClient e))).
Proof.
  intros Hasg Hlt Hrun.
  assert (Forall named (concat (asgPages (autoscalingClient e)))) as Hnamed.
  { destruct (decide (Exists (λ g, AutoScalingGroupName g = None)
                        (concat (asgPages (autoscalingClient e))))) as [Hex|Hex].
    - pose proof (computePriorities_result e w) as Hres.
      rewrite Hrun, (pages_Panic _ _ _ [] Hex) in Hres. done.
    - apply not_Exists_Forall in Hex; [|apply _].
      eapply Forall_impl; [exact Hex|]. intros g Hg. simpl in Hg.
      unfold named. by destruct (AutoScalingGroupName g). }
  assert (filter (λ g, nameContains (asgContains (vars e)) g)
            (concat (asgPages (autoscalingClient e)))
          = concat (asgPages (autoscalingClient e))) as Hall.
  { apply filter_all. eapply Forall_impl; [exact Hnamed|].
    intros g [n Hn]. unfold nameContains. by rewrite Hn, Hasg, Contains_empty. }
  apply computePriorities_Ok in Hrun as (es & Hes & ->).
  rewrite totalNames_foldl. unfold totalNames at 1. rewrite map_fold_empty. simpl.
  rewrite (adding_kept e _ es Hes).
  f_equal. apply filter_all.
  rewrite Hall in Hes. apply Forall_forall. intros g Hg.
  apply list_elem_of_lookup in Hg as [i Hi].
  destruct (Forall2_lookup_l _ _ _ _ _ Hes Hi) as (r & _ & Hr).
  destruct (proj1 (Forall_forall _ _) Hnamed g) as [n Hn];
    [by apply list_elem_of_lookup_2 in Hi|].
  unfold kept, nameContains. rewrite Hn, Hasg, Contains_empty. simpl.
  unfold entryOf in Hr. destruct (ltNameOf g) as [lt|]; [|done].
  by rewrite Hlt, Contains_empty.
Qed.

End Debug.

Lemma no_filter_keeps_every_group_witness :
  totalNames Runs.tiersABC = 3%nat.
Proof.
  apply (no_filter_keeps_every_group Sample.abcEnv Runs.emptyStore
           Runs.tiersABC Runs.emptyStore); [reflexivity|reflexivity|].
  vm_compute. reflexivity.
Defined.
